(** * The CodeCatalyst dev-environment reconnection watcher

    A shallow embedding of the reconnection watcher of the AWS Toolkit
    (handleRestart, reconnectDevEnvs, filterInvalidDevEnvs,
    setWatchedDevEnvStatus, pollDevEnvs, isTerminating, isExpired,
    failDevEnv, openReconnectedDevEnv, getDevEnvName) together with the
    properties of its polling state machine.

    The watcher is effectful code: it reads and writes the extension's
    global memento, queries a remote client, reports progress and spawns
    the connect command.  It is embedded in a small state-and-trace monad:
    the state is the value stored in the memento under the reconnect key,
    the trace lists the observable actions in program order.  Everything
    the watcher reads from outside (clock, client, cancellation token,
    outcome of the connect command) comes from a [World] of oracles. *)

From stdpp Require Import base strings list gmap fin_maps.
From Stdlib Require Import ZArith Lia.

Open Scope string_scope.
Open Scope list_scope.
Open Scope nat_scope.

(** ** Data model *)

(** [DevEnvMemento]: one pending reconnection, as written by
    [saveReconnectionInformation]. *)
Record DevEnvMemento := mkDevEnvMemento {
  previousVscodeWorkspace : string;
  spaceName : string;
  projectName : string;
  attemptingReconnect : bool;
  previousConnectionTimestamp : Z;
  alias : option string
}.

(** [Pick<DevEnvironment, 'status'>]: what the watcher reads of the
    client's answer. *)
Record DevEnvironment := mkDevEnvironment {
  status : option string
}.

(** [Record<string, DevEnvMemento>]: a JS object used as a map from dev
    environment ids to their reconnection records. *)
Abbreviation DevEnvs := (gmap string DevEnvMemento).

(** Observable actions of the watcher, one constructor per call that
    leaves the module. *)
Inductive Event :=
  | LogInfo (msg : string)
  | ShowInformationMessage (msg : string)
  | ProgressReport (msg : string)
  | MementoUpdate (value : DevEnvs)
  | GetDevEnvironment (id space project : string)
  | TelemetryRecord (source : string)
  | ConnectCommand (id space project workspace : string)
  | Sleep (ms : Z)
  | CloseWindow
  | ShowViewLogsMessage (msg : string).

(** Everything the watcher reads from its surroundings.  Each read of the
    program is identified by the pass it occurs in and the record being
    examined, so the oracles take those as arguments. *)
Record World := mkWorld {
  (** [Date.now()] when [filterInvalidDevEnvs] examines record [id] *)
  filterNow : string → Z;
  (** [Date.now()] when tick [n] of the poll loop examines record [id] *)
  pollNow : nat → string → Z;
  (** [client.getDevEnvironment({id, spaceName, projectName})] at tick [n];
      [None] when the promise rejects *)
  getDevEnvironment : nat → string → string → string → option DevEnvironment;
  (** [token.isCancellationRequested] at the start of tick [n] *)
  isCancellationRequested : nat → bool;
  (** whether [codeCatalystConnectCommand.execute] resolves for the record
      opened at tick [n] *)
  connectResolves : nat → string → bool
}.

Definition RECONNECT_TIMER : Z := 5000.
Definition MAX_RECONNECT_TIME : Z := 10 * 60 * 1000.

(** ** The state-and-trace monad *)

(** Modelled from the spec: the persisted key-value store
    ([vscode.Memento], whose implementation is outside the sources).  The
    spec gives it [get(key, defaultValue) -> value] and
    [update(key, value)], read and written as a whole; the only key the
    watcher uses is the reconnect key, so the state is the mapping stored
    under it: [update] replaces it, [get] returns it (the default [{}] of
    the source is the empty map).  The store changes only through
    [update]: the in-place deletions the watcher makes on its own object
    do not reach it.

    A program takes the stored mapping and returns its result, the stored
    mapping afterwards, and the actions it performed, in order. *)
Definition Prog (A : Type) : Type := DevEnvs → A * DevEnvs * list Event.

Definition result {A} (r : A * DevEnvs * list Event) : A := r.1.1.
Definition store {A} (r : A * DevEnvs * list Event) : DevEnvs := r.1.2.
Definition events {A} (r : A * DevEnvs * list Event) : list Event := r.2.

Definition prog_ret {A} (a : A) : Prog A := λ m, (a, m, []).

Definition prog_bind {A B} (k : A → Prog B) (c : Prog A) : Prog B :=
  λ m, let r1 := c m in
       let r2 := k (result r1) (store r1) in
       (result r2, store r2, events r1 ++ events r2).

#[global] Instance prog_mret : MRet Prog := @prog_ret.
#[global] Instance prog_mbind : MBind Prog := @prog_bind.

Definition emit (e : Event) : Prog unit := λ m, (tt, m, [e]).

Definition memento_get : Prog DevEnvs := λ m, (m, m, []).
Definition memento_update (value : DevEnvs) : Prog unit :=
  λ _, (tt, value, [MementoUpdate value]).

(** ** JS object iteration *)

(** [Object.keys(o)], also the keys a [for..in] over [o] starts from.  The
    keys come in the order of the map, not in JS's insertion order; the
    statements below count events or ask whether they occur, and do not
    depend on the order in which one pass visits the records. *)
Definition keys (o : DevEnvs) : list string := (map_to_list o).*1.

(** A loop over a list of keys threading a local value. *)
Fixpoint forKeys {A} (ks : list string) (body : string → A → Prog A) (a : A)
  : Prog A :=
  match ks with
  | [] => mret a
  | k :: ks' => a' ← body k a; forKeys ks' body a'
  end.

(** [for (const id in o) body]: the keys are those [o] has when the loop
    starts; a key deleted before its turn is skipped.  The body receives
    and returns the object, which it may mutate. *)
Definition forIn (body : string → DevEnvs → Prog DevEnvs) (o : DevEnvs)
  : Prog DevEnvs :=
  forKeys (keys o)
    (λ k o', match o' !! k with Some _ => body k o' | None => mret o' end) o.

(** The properties every object inherits from [Object.prototype].  The
    objects of this module are plain objects ([{}] or what the memento
    hands out), so these are the properties they have besides their own. *)
Definition objectPrototypeProperties : list string :=
  ["constructor"; "__defineGetter__"; "__defineSetter__"; "hasOwnProperty";
   "__lookupGetter__"; "__lookupSetter__"; "isPrototypeOf";
   "propertyIsEnumerable"; "toString"; "valueOf"; "__proto__";
   "toLocaleString"].

(** [k in o]: [k] is an own key of [o] or is found up its prototype
    chain. *)
Definition hasProperty (k : string) (o : DevEnvs) : bool :=
  bool_decide (is_Some (o !! k))
  || bool_decide (k ∈ objectPrototypeProperties).

(** [o[k].alias] when [k in o]: the alias of the record under an own key;
    undefined for the functions and the prototype object that [o[k]] gives
    for an inherited property. *)
Definition aliasOfProperty (k : string) (o : DevEnvs) : option string :=
  match o !! k with
  | Some record => alias record
  | None => None
  end.

(** [o[k] = v] with [v] an object: sets the own property [k], except that
    for [k = "__proto__"] on an object without such an own key the
    assignment goes to the accessor of [Object.prototype] and replaces the
    prototype of [o], leaving its own properties as they are. *)
Definition setProperty (k : string) (v : DevEnvMemento) (o : DevEnvs)
  : DevEnvs :=
  match o !! k with
  | None => if String.eqb k "__proto__" then o else <[k := v]> o
  | Some _ => <[k := v]> o
  end.

(** ** The watcher *)

Definition getDevEnvName (alias : option string) (id : string) : string :=
  match alias with
  | Some a => if String.eqb a "" then id else a
  | None => id
  end.

Definition isExpired (now previousConnectionTime : Z) : bool :=
  (MAX_RECONNECT_TIME <? now - previousConnectionTime)%Z.

Definition isTerminating (devenv : DevEnvironment) : bool :=
  match status devenv with
  | None => false
  | Some st =>
    if String.eqb st "" then false
    else String.eqb st "FAILED" || String.eqb st "DELETING"
         || String.eqb st "DELETED"
  end.

Definition isRunning (metadata : DevEnvironment) : bool :=
  match status metadata with
  | Some st => String.eqb st "RUNNING"
  | None => false
  end.

(** [filterInvalidDevEnvs]: a [for..in] that deletes, in place, the
    records that are expired or already being reconnected. *)
Definition filterInvalidDevEnvs (now : string → Z) (devenvs : DevEnvs)
  : DevEnvs :=
  foldl (λ devenvs reconnectDevEnvId,
           match devenvs !! reconnectDevEnvId with
           | Some devenvDetail =>
             if isExpired (now reconnectDevEnvId)
                  (previousConnectionTimestamp devenvDetail)
                || attemptingReconnect devenvDetail
             then delete reconnectDevEnvId devenvs
             else devenvs
           | None => devenvs
           end)
        devenvs (keys devenvs).

(** [{ ...detail, attemptingReconnect: watchStatus }] *)
Definition withAttemptingReconnect (watchStatus : bool) (detail : DevEnvMemento)
  : DevEnvMemento :=
  {| previousVscodeWorkspace := previousVscodeWorkspace detail;
     spaceName := spaceName detail;
     projectName := projectName detail;
     attemptingReconnect := watchStatus;
     previousConnectionTimestamp := previousConnectionTimestamp detail;
     alias := alias detail |}.

(** The loop of [setWatchedDevEnvStatus] over [Object.entries(devenvs)]. *)
Definition markWatched (watchStatus : bool) (devenvs : DevEnvs) : DevEnvs :=
  foldl (λ devenvs' entry,
           <[entry.1 := withAttemptingReconnect watchStatus entry.2]> devenvs')
        devenvs (map_to_list devenvs).

(** [setWatchedDevEnvStatus]: rewrites every record of [devenvs] in place
    and stores [devenvs] as the new value of the memento.  Returns the
    mutated object. *)
Definition setWatchedDevEnvStatus (devenvs : DevEnvs) (watchStatus : bool)
  : Prog DevEnvs :=
  let devenvs := markWatched watchStatus devenvs in
  _ ← memento_update devenvs;
  mret devenvs.

(** [failDevEnv] *)
Definition failDevEnv (devenvId : string) : Prog unit :=
  curr ← memento_get;
  memento_update (delete devenvId curr).

(** [openReconnectedDevEnv].  The source calls this async function without
    awaiting it: its actions after the first [await] happen later than the
    call.  The trace lists them at the call, in the order the task performs
    them; when the connect command rejects, the task stops there. *)
Definition openReconnectedDevEnv (resolves : bool) (id : string)
    (devenv : DevEnvMemento) (closeRootInstance : bool) : Prog unit :=
  _ ← emit (TelemetryRecord "Reconnect");
  _ ← emit (ConnectCommand id (spaceName devenv) (projectName devenv)
              (previousVscodeWorkspace devenv));
  if resolves then
    if closeRootInstance then
      _ ← emit (Sleep 5000);
      emit CloseWindow
    else mret tt
  else mret tt.

(** The body of the [for..in] of [pollDevEnvs] for one id. *)
Definition pollOne (w : World) (shouldCloseRootInstance : bool) (tick : nat)
    (id : string) (devenvs : DevEnvs) : Prog DevEnvs :=
  match devenvs !! id with
  | None => mret devenvs
  | Some details =>
    let devenvName := getDevEnvName (alias details) id in
    _ ← emit (GetDevEnvironment id (spaceName details) (projectName details));
    match getDevEnvironment w tick id (spaceName details) (projectName details) with
    | Some metadata =>
      if isRunning metadata then
        _ ← emit (ProgressReport ("Dev environment " +:+ devenvName +:+
                    " is now running. Attempting to re-open"));
        _ ← openReconnectedDevEnv (connectResolves w tick id) id details
              shouldCloseRootInstance;
        mret (delete id devenvs)
      else if isTerminating metadata then
        _ ← emit (ProgressReport ("Dev environment " +:+ devenvName +:+
                    " is terminating"));
        mret (delete id devenvs)
      else if isExpired (pollNow w tick id) (previousConnectionTimestamp details) then
        _ ← emit (ProgressReport ("Dev environment " +:+ devenvName +:+
                    " has expired"));
        mret devenvs
      else mret devenvs
    | None =>
      _ ← failDevEnv id;
      let devenvs := delete id devenvs in
      _ ← emit (ShowViewLogsMessage ("Unable to reconnect to $" +:+ devenvName));
      mret devenvs
    end
  end.

(** One pass of the [for..in] of [pollDevEnvs]. *)
Definition pollTick (w : World) (shouldCloseRootInstance : bool) (tick : nat)
    (devenvs : DevEnvs) : Prog DevEnvs :=
  forIn (pollOne w shouldCloseRootInstance tick) devenvs.

(** How a bounded run of the [while] loop ended. *)
Inductive Outcome := Returned | StillPolling.

(** The [while] loop of [pollDevEnvs]; [fuel] bounds the number of times
    its condition is evaluated. *)
Fixpoint pollLoop (w : World) (shouldCloseRootInstance : bool)
    (fuel tick : nat) (devenvs : DevEnvs) : Prog (Outcome * DevEnvs) :=
  match fuel with
  | O => mret (StillPolling, devenvs)
  | S fuel' =>
    if 0 <? size devenvs then
      if isCancellationRequested w tick then
        devenvs ← setWatchedDevEnvStatus devenvs false;
        mret (Returned, devenvs)
      else
        devenvs ← pollTick w shouldCloseRootInstance tick devenvs;
        _ ← emit (Sleep RECONNECT_TIMER);
        pollLoop w shouldCloseRootInstance fuel' (S tick) devenvs
    else mret (Returned, devenvs)
  end.

(** [pollDevEnvs] *)
Definition pollDevEnvs (w : World) (fuel : nat) (devenvs : DevEnvs)
  : Prog (Outcome * DevEnvs) :=
  devenvs ← setWatchedDevEnvStatus devenvs true;
  let shouldCloseRootInstance := size devenvs =? 1 in
  pollLoop w shouldCloseRootInstance fuel 0 devenvs.

(** [join(', ')] on an array of strings. *)
Fixpoint join (sep : string) (parts : list string) : string :=
  match parts with
  | [] => ""
  | [p] => p
  | p :: ps => p +:+ sep +:+ join sep ps
  end.

(** [reconnectDevEnvs] *)
Definition reconnectDevEnvs (w : World) (fuel : nat) : Prog unit :=
  pendingDevEnvs ← memento_get;
  let validDevEnvs := filterInvalidDevEnvs (filterNow w) pendingDevEnvs in
  if size validDevEnvs =? 0 then mret tt
  else
    let devenvNames :=
      (λ entry, getDevEnvName (alias entry.2) entry.1)
        <$> map_to_list validDevEnvs in
    let polledDevEnvs := join ", " devenvNames in
    let progressTitle :=
      "The following devenvs are restarting: " +:+ polledDevEnvs in
    _ ← emit (ProgressReport progressTitle);
    _ ← pollDevEnvs w fuel validDevEnvs;
    mret tt.

(** [handleRestart] *)
Definition handleRestart (w : World) (fuel : nat) (envId : option string)
  : Prog unit :=
  match envId with
  | Some envId =>
    pendingReconnects ← memento_get;
    if hasProperty envId pendingReconnects then
      let devenvName :=
        getDevEnvName (aliasOfProperty envId pendingReconnects) envId in
      _ ← emit (LogInfo ("codecatalyst: ssh session reconnected to devenv: "
                          +:+ devenvName));
      _ ← emit (ShowInformationMessage
                  ("Reconnected to dev environment: " +:+ devenvName));
      memento_update (delete envId pendingReconnects)
    else mret tt
  | None =>
    _ ← emit (LogInfo "codecatalyst: attempting to poll development envionments");
    reconnectDevEnvs w fuel
  end.

(** ** Vocabulary of the statements *)

(** The five rows of the transition table of one status query. *)
Inductive Verdict := VRunning | VTerminating | VExpired | VPending | VError.

(** Which row a record falls in at a tick, read off the tests of [pollOne]
    in their order. *)
Definition verdict (w : World) (tick : nat) (id : string)
    (details : DevEnvMemento) : Verdict :=
  match getDevEnvironment w tick id (spaceName details) (projectName details) with
  | Some metadata =>
    if isRunning metadata then VRunning
    else if isTerminating metadata then VTerminating
    else if isExpired (pollNow w tick id) (previousConnectionTimestamp details)
    then VExpired
    else VPending
  | None => VError
  end.

(** Rows after which the record is still in the working set. *)
Definition stillWatched (v : Verdict) : bool :=
  match v with
  | VExpired | VPending => true
  | VRunning | VTerminating | VError => false
  end.

(** Rows that write the memento. *)
Definition writesStore (v : Verdict) : bool :=
  match v with VError => true | _ => false end.

(** The actions of one status query, by row; [m] is the value of the
    memento when the query is made. *)
Definition recordEvents (w : World) (close : bool) (tick : nat) (id : string)
    (details : DevEnvMemento) (m : DevEnvs) : list Event :=
  let devenvName := getDevEnvName (alias details) id in
  GetDevEnvironment id (spaceName details) (projectName details) ::
  match verdict w tick id details with
  | VRunning =>
    ProgressReport ("Dev environment " +:+ devenvName +:+
                    " is now running. Attempting to re-open") ::
    TelemetryRecord "Reconnect" ::
    ConnectCommand id (spaceName details) (projectName details)
      (previousVscodeWorkspace details) ::
    (if connectResolves w tick id && close then [Sleep 5000; CloseWindow] else [])
  | VTerminating =>
    [ProgressReport ("Dev environment " +:+ devenvName +:+ " is terminating")]
  | VExpired =>
    [ProgressReport ("Dev environment " +:+ devenvName +:+ " has expired")]
  | VPending => []
  | VError =>
    [MementoUpdate (delete id m);
     ShowViewLogsMessage ("Unable to reconnect to $" +:+ devenvName)]
  end.

(** What a record of the working set looks like after its query. *)
Definition afterQuery (w : World) (tick : nat) (id : string)
    (d : option DevEnvMemento) : option DevEnvMemento :=
  match d with
  | Some d => if stillWatched (verdict w tick id d) then Some d else None
  | None => None
  end.

(** What the memento holds under [id] after the query of record [d]. *)
Definition storedAfterQuery (w : World) (tick : nat) (id : string)
    (d : option DevEnvMemento) (stored : option DevEnvMemento)
  : option DevEnvMemento :=
  match d with
  | Some d => if writesStore (verdict w tick id d) then None else stored
  | None => stored
  end.

(** The actions of the query of key [k], if [k] is watched; [ms k] is the
    value of the memento at that point. *)
Definition eventsOfKey (w : World) (close : bool) (tick : nat)
    (devenvs : DevEnvs) (ms : string → DevEnvs) (k : string) : list Event :=
  match devenvs !! k with
  | Some d => recordEvents w close tick k d (ms k)
  | None => []
  end.

(** Number of events of a trace that satisfy a test. *)
Fixpoint countEvents (p : Event → bool) (evs : list Event) : nat :=
  match evs with
  | [] => 0
  | e :: evs' => (if p e then 1 else 0) + countEvents p evs'
  end.

(** The connect command being run for dev environment [id]. *)
Definition isConnectFor (id : string) (e : Event) : bool :=
  match e with
  | ConnectCommand id' _ _ _ => String.eqb id' id
  | _ => false
  end.

Definition isQuery (e : Event) : bool :=
  match e with GetDevEnvironment _ _ _ => true | _ => false end.

(** A status query for dev environment [id]. *)
Definition isQueryFor (id : string) (e : Event) : bool :=
  match e with
  | GetDevEnvironment id' _ _ => String.eqb id' id
  | _ => false
  end.

Definition isStoreWrite (e : Event) : bool :=
  match e with MementoUpdate _ => true | _ => false end.

Definition isCloseWindow (e : Event) : bool :=
  match e with CloseWindow => true | _ => false end.

(** A store in which every record is claimed by some watcher. *)
Definition allClaimed (m : DevEnvs) : Prop :=
  ∀ id d, m !! id = Some d → attemptingReconnect d = true.

(** ** Sample inputs *)

Definition backendRecord : DevEnvMemento :=
  {| previousVscodeWorkspace := "/projects/backend";
     spaceName := "space";
     projectName := "shop";
     attemptingReconnect := false;
     previousConnectionTimestamp := 1000;
     alias := Some "backend" |}.

Definition docsRecord : DevEnvMemento :=
  {| previousVscodeWorkspace := "/projects";
     spaceName := "space";
     projectName := "docs";
     attemptingReconnect := false;
     previousConnectionTimestamp := 2000;
     alias := None |}.

Definition oneStore : DevEnvs := {["env-1" := backendRecord]}.
Definition twoStore : DevEnvs := <["env-2" := docsRecord]> oneStore.

(** A store whose only record is already claimed by a watcher. *)
Definition claimedStore : DevEnvs :=
  {["env-1" := withAttemptingReconnect true backendRecord]}.

(** A world with a fixed clock in which the connect command resolves. *)
Definition worldOf (now : Z)
    (answer : nat → string → option DevEnvironment) (cancel : nat → bool)
  : World :=
  {| filterNow := λ _, now;
     pollNow := λ _ _, now;
     getDevEnvironment := λ tick id _ _, answer tick id;
     isCancellationRequested := cancel;
     connectResolves := λ _ _, true |}.

Definition answering (st : string) : option DevEnvironment :=
  Some {| status := Some st |}.

(** Every dev environment is running at once. *)
Definition runningWorld : World :=
  worldOf 5000 (λ _ _, answering "RUNNING") (λ _, false).

(** Every dev environment has failed. *)
Definition failedWorld : World :=
  worldOf 5000 (λ _ _, answering "FAILED") (λ _, false).

(** Every dev environment stays stopped, and more than ten minutes have
    passed since the records were saved. *)
Definition expiredWorld : World :=
  worldOf 700000 (λ _ _, answering "STOPPED") (λ _, false).

(** The query for env-1 is rejected, env-2 is still starting. *)
Definition errorWorld : World :=
  worldOf 5000
    (λ _ id, if String.eqb id "env-1" then None else answering "STARTING")
    (λ _, false).

(** The dev environments are still starting; the user cancels during the
    first sleep. *)
Definition cancelWorld : World :=
  worldOf 5000 (λ _ _, answering "STARTING") (λ tick, 0 <? tick).

(** env-1 is starting at the first tick and running from the second. *)
Definition restartWorld : World :=
  worldOf 5000
    (λ tick _, if tick =? 0 then answering "STARTING" else answering "RUNNING")
    (λ _, false).

(** ** The rest of the module *)

(** What [saveReconnectionInformation] and [removeReconnectionInformation]
    read of their argument, a [DevEnvironmentId] with the alias:
    [devenv.id], [devenv.org.name], [devenv.project.name], [devenv.alias]. *)
Record DevEnvironmentId := mkDevEnvironmentId {
  dev_id : string;
  org_name : string;
  project_name : string;
  dev_alias : option string
}.

(** The workspace path [saveReconnectionInformation] records:
    [vscode.workspace.workspaceFolders] is undefined or an array of
    folders, given here by their [uri.fsPath]. *)
Definition currentWorkspace (workspaceFolders : option (list string)) : string :=
  match workspaceFolders with
  | Some (folder :: _) => folder
  | _ => "/projects"
  end.

(** [saveReconnectionInformation]; [now] is the value of [Date.now()].  It
    goes through the same global memento as the watcher. *)
Definition saveReconnectionInformation (workspaceFolders : option (list string))
    (now : Z) (devenv : DevEnvironmentId) : Prog unit :=
  pendingReconnects ← memento_get;
  memento_update
    (setProperty (dev_id devenv)
       {| previousVscodeWorkspace := currentWorkspace workspaceFolders;
          spaceName := org_name devenv;
          projectName := project_name devenv;
          attemptingReconnect := false;
          previousConnectionTimestamp := now;
          alias := dev_alias devenv |}
       pendingReconnects).

(** [removeReconnectionInformation] *)
Definition removeReconnectionInformation (devenv : DevEnvironmentId)
  : Prog unit :=
  pendingReconnects ← memento_get;
  memento_update (delete (dev_id devenv) pendingReconnects).

(** One firing of [authProvider.onDidChangeActiveConnection]: whether the
    client made for it is connected, and what [getCodeCatalystDevEnvId()]
    returns. *)
Record ConnectionChange := mkConnectionChange {
  clientConnected : bool;
  codeCatalystDevEnvId : option string
}.

(** The listener [watchRestartingDevEnvs] registers, as a function of the
    [restartHandled] flag it closes over; it returns the flag afterwards. *)
Definition onDidChangeActiveConnection (w : World) (fuel : nat)
    (change : ConnectionChange) (restartHandled : bool) : Prog bool :=
  if restartHandled then mret restartHandled
  else if clientConnected change then
    _ ← handleRestart w fuel (codeCatalystDevEnvId change);
    mret true
  else mret restartHandled.

(** [watchRestartingDevEnvs] followed by a series of connection changes,
    each handled to its end before the next one fires. *)
Fixpoint handleChanges (w : World) (fuel : nat) (changes : list ConnectionChange)
    (restartHandled : bool) : Prog bool :=
  match changes with
  | [] => mret restartHandled
  | change :: changes' =>
    restartHandled ← onDidChangeActiveConnection w fuel change restartHandled;
    handleChanges w fuel changes' restartHandled
  end.

Definition watchRestartingDevEnvs (w : World) (fuel : nat)
    (changes : list ConnectionChange) : Prog bool :=
  let restartHandled := false in
  handleChanges w fuel changes restartHandled.

(** The record [saveReconnectionInformation] stores. *)
Definition savedRecord (workspaceFolders : option (list string)) (now : Z)
    (devenv : DevEnvironmentId) : DevEnvMemento :=
  {| previousVscodeWorkspace := currentWorkspace workspaceFolders;
     spaceName := org_name devenv;
     projectName := project_name devenv;
     attemptingReconnect := false;
     previousConnectionTimestamp := now;
     alias := dev_alias devenv |}.

(** Two records that agree on every field but [attemptingReconnect]. *)
Definition sameFields (d1 d2 : DevEnvMemento) : Prop :=
  previousVscodeWorkspace d1 = previousVscodeWorkspace d2
  ∧ spaceName d1 = spaceName d2
  ∧ projectName d1 = projectName d2
  ∧ previousConnectionTimestamp d1 = previousConnectionTimestamp d2
  ∧ alias d1 = alias d2.

(** A dev environment as [saveReconnectionInformation] receives it. *)
Definition backendDevEnv : DevEnvironmentId :=
  {| dev_id := "env-1"; org_name := "space"; project_name := "shop";
     dev_alias := Some "backend" |}.

(** No dev environment ever answers with a final status, and the connect
    command is rejected. *)
Definition rejectingWorld : World :=
  {| filterNow := λ _, 5000%Z;
     pollNow := λ _ _, 5000%Z;
     getDevEnvironment := λ _ _ _ _, answering "RUNNING";
     isCancellationRequested := λ _, false;
     connectResolves := λ _ _, false |}.

(** ** Monad laws used in the proofs *)

Lemma events_bind {A B} (c : Prog A) (k : A → Prog B) m :
  events ((c ≫= k) m) = events (c m) ++ events (k (result (c m)) (store (c m))).
Proof. reflexivity. Qed.

Lemma store_bind {A B} (c : Prog A) (k : A → Prog B) m :
  store ((c ≫= k) m) = store (k (result (c m)) (store (c m))).
Proof. reflexivity. Qed.

Lemma result_bind {A B} (c : Prog A) (k : A → Prog B) m :
  result ((c ≫= k) m) = result (k (result (c m)) (store (c m))).
Proof. reflexivity. Qed.

Lemma result_run {A} (a : A) (m : DevEnvs) (evs : list Event) :
  result (a, m, evs) = a.
Proof. reflexivity. Qed.

Lemma store_run {A} (a : A) (m : DevEnvs) (evs : list Event) :
  store (a, m, evs) = m.
Proof. reflexivity. Qed.

Lemma events_run {A} (a : A) (m : DevEnvs) (evs : list Event) :
  events (a, m, evs) = evs.
Proof. reflexivity. Qed.

Lemma countEvents_app p evs1 evs2 :
  countEvents p (evs1 ++ evs2) = countEvents p evs1 + countEvents p evs2.
Proof. induction evs1 as [|e evs1 IH]; cbn; [done | rewrite IH; lia]. Qed.

Lemma countEvents_0 p evs :
  countEvents p evs = 0 ↔ ∀ e, e ∈ evs → p e = false.
Proof.
  induction evs as [|e evs IH]; cbn.
  - split; [intros _ e He; inversion He | done].
  - split.
    + intros H x Hx. destruct (p e) eqn:Hp; [lia |].
      apply elem_of_cons in Hx as [-> | Hx]; [done |]. apply IH; [lia | done].
    + intros H. rewrite (H e) by left. cbn. apply IH.
      intros x Hx. apply H. by right.
Qed.

(** ** Object iteration *)

Lemma keys_NoDup (o : DevEnvs) : NoDup (keys o).
Proof. apply NoDup_fst_map_to_list. Qed.

Lemma elem_of_keys (o : DevEnvs) k : k ∈ keys o ↔ is_Some (o !! k).
Proof.
  unfold keys. rewrite list_elem_of_fmap. split.
  - intros [[k' d] [-> Hin]]. apply elem_of_map_to_list in Hin. eauto.
  - intros [d Hd]. exists (k, d). split; [done |]. by apply elem_of_map_to_list.
Qed.

Lemma size_keys (o : DevEnvs) : length (keys o) = size o.
Proof. unfold keys. by rewrite length_fmap, length_map_to_list. Qed.

(** ** [filterInvalidDevEnvs] and [setWatchedDevEnvStatus] *)

(** The deleting loop of [filterInvalidDevEnvs] over any list of distinct
    keys: a listed key keeps its record exactly when the test fails, the
    other keys are untouched. *)
Lemma filter_loop_lookup now ks : NoDup ks → ∀ (o : DevEnvs) id,
  foldl (λ devenvs reconnectDevEnvId,
           match devenvs !! reconnectDevEnvId with
           | Some devenvDetail =>
             if isExpired (now reconnectDevEnvId)
                  (previousConnectionTimestamp devenvDetail)
                || attemptingReconnect devenvDetail
             then delete reconnectDevEnvId devenvs
             else devenvs
           | None => devenvs
           end) o ks !! id
  = if decide (id ∈ ks) then
      match o !! id with
      | Some d =>
        if isExpired (now id) (previousConnectionTimestamp d)
           || attemptingReconnect d
        then None else Some d
      | None => None
      end
    else o !! id.
Proof.
  induction 1 as [|k ks Hk Hnd IH]; intros o id; cbn [foldl].
  - case_decide as Hin; [inversion Hin | done].
  - rewrite IH. destruct (decide (id = k)) as [-> | Hne].
    + rewrite decide_False by done. rewrite decide_True by left.
      destruct (o !! k) as [d|] eqn:Hd; [| by rewrite Hd].
      destruct (isExpired _ _ || _); [apply lookup_delete_eq | done].
    + assert (Hsame :
        match o !! k with
        | Some devenvDetail =>
          if isExpired (now k) (previousConnectionTimestamp devenvDetail)
             || attemptingReconnect devenvDetail
          then delete k o else o
        | None => o
        end !! id = o !! id).
      { destruct (o !! k) as [d|]; [| done].
        destruct (isExpired _ _ || _); [by apply lookup_delete_ne | done]. }
      rewrite Hsame.
      destruct (decide (id ∈ ks)) as [Hin | Hin].
      * by rewrite decide_True by (by right).
      * rewrite decide_False; [done |].
        intros [? | ?]%elem_of_cons; done.
Qed.

Lemma filterInvalidDevEnvs_lookup now (devenvs : DevEnvs) id :
  filterInvalidDevEnvs now devenvs !! id
  = match devenvs !! id with
    | Some d =>
      if isExpired (now id) (previousConnectionTimestamp d)
         || attemptingReconnect d
      then None else Some d
    | None => None
    end.
Proof.
  unfold filterInvalidDevEnvs.
  rewrite filter_loop_lookup by apply keys_NoDup.
  case_decide as Hin; [done |].
  destruct (devenvs !! id) as [d|] eqn:Hd; [| done].
  exfalso. apply Hin, elem_of_keys. eauto.
Qed.

Lemma filterInvalidDevEnvs_allClaimed now (m : DevEnvs) :
  allClaimed m → filterInvalidDevEnvs now m = ∅.
Proof.
  intros Hall. apply map_eq. intros id.
  rewrite filterInvalidDevEnvs_lookup, lookup_empty.
  destruct (m !! id) as [d|] eqn:Hd; [| done].
  rewrite (Hall id d Hd). by rewrite orb_true_r.
Qed.

(** The rewriting loop of [setWatchedDevEnvStatus] over any list of entries
    with distinct keys. *)
Lemma mark_loop_lookup b (l : list (string * DevEnvMemento)) :
  NoDup l.*1 → ∀ (o : DevEnvs) id,
  foldl (λ devenvs' entry,
           <[entry.1 := withAttemptingReconnect b entry.2]> devenvs') o l !! id
  = match (list_to_map l : DevEnvs) !! id with
    | Some d => Some (withAttemptingReconnect b d)
    | None => o !! id
    end.
Proof.
  induction l as [|[k d] l IH]; intros Hnd o id; cbn [foldl fst snd].
  - done.
  - cbn in Hnd. apply NoDup_cons in Hnd as [Hk Hnd].
    rewrite IH by done. cbn [list_to_map foldr].
    destruct (decide (id = k)) as [-> | Hne].
    + rewrite lookup_insert_eq.
      rewrite (not_elem_of_list_to_map_1 (M := gmap string)) by done.
      by rewrite lookup_insert_eq.
    + cbn [fst snd]. rewrite (lookup_insert_ne (list_to_map l)) by done.
      destruct (list_to_map l !! id); [done |]. by rewrite lookup_insert_ne.
Qed.

Lemma markWatched_fmap b (devenvs : DevEnvs) :
  markWatched b devenvs = withAttemptingReconnect b <$> devenvs.
Proof.
  apply map_eq. intros id. unfold markWatched.
  rewrite mark_loop_lookup by apply NoDup_fst_map_to_list.
  rewrite list_to_map_to_list, lookup_fmap.
  by destruct (devenvs !! id).
Qed.

Lemma markWatched_lookup b (devenvs : DevEnvs) id :
  markWatched b devenvs !! id = withAttemptingReconnect b <$> devenvs !! id.
Proof. by rewrite markWatched_fmap, lookup_fmap. Qed.

Lemma markWatched_size b (devenvs : DevEnvs) :
  size (markWatched b devenvs) = size devenvs.
Proof. by rewrite markWatched_fmap, map_size_fmap. Qed.

Lemma setWatchedDevEnvStatus_run (devenvs : DevEnvs) b m :
  setWatchedDevEnvStatus devenvs b m
  = (markWatched b devenvs, markWatched b devenvs,
     [MementoUpdate (markWatched b devenvs)]).
Proof. reflexivity. Qed.

(** ** One status query *)

Section Tick.
Variables (w : World) (close : bool) (tick : nat).

(** [pollOne] on a watched record, row by row. *)
Lemma pollOne_Some id (devenvs : DevEnvs) m d :
  devenvs !! id = Some d →
  pollOne w close tick id devenvs m
  = (if stillWatched (verdict w tick id d) then devenvs else delete id devenvs,
     if writesStore (verdict w tick id d) then delete id m else m,
     recordEvents w close tick id d m).
Proof.
  intros Hd. unfold pollOne, recordEvents, verdict. rewrite Hd.
  destruct (getDevEnvironment w tick id _ _) as [metadata|]; [| done].
  destruct (isRunning metadata).
  { unfold openReconnectedDevEnv.
    destruct (connectResolves w tick id), close; reflexivity. }
  destruct (isTerminating metadata); [done |].
  by destruct (isExpired _ _).
Qed.

Lemma pollOne_None id (devenvs : DevEnvs) m :
  devenvs !! id = None → pollOne w close tick id devenvs m = (devenvs, m, []).
Proof. intros Hd. unfold pollOne. by rewrite Hd. Qed.

Lemma flat_map_agree {A} (f g : A → list Event) (l : list A) :
  (∀ x, x ∈ l → f x = g x) → flat_map f l = flat_map g l.
Proof.
  induction l as [|x l IH]; intros H; cbn; [done |].
  rewrite (H x) by left. f_equal. apply IH. intros y Hy. apply H. by right.
Qed.

(** The pass over any list of distinct keys: each listed record is
    queried once, against the memento as the earlier queries left it;
    the records of the other keys are untouched. *)
Lemma poll_keys ks : NoDup ks → ∀ (devenvs m : DevEnvs),
  let r := forKeys ks
             (λ k o', match o' !! k with
                      | Some _ => pollOne w close tick k o'
                      | None => mret o'
                      end) devenvs m in
  (∀ id, result r !! id
         = if decide (id ∈ ks) then afterQuery w tick id (devenvs !! id)
           else devenvs !! id)
  ∧ (∀ id, store r !! id
           = if decide (id ∈ ks)
             then storedAfterQuery w tick id (devenvs !! id) (m !! id)
             else m !! id)
  ∧ ∃ ms, events r = flat_map (eventsOfKey w close tick devenvs ms) ks.
Proof.
  induction 1 as [|k ks Hk Hnd IH]; intros devenvs m r; subst r.
  - cbn. split_and!; [done | done | by exists (λ _, m)].
  - cbn [forKeys].
    set (body := λ k o', match o' !! k with
                         | Some _ => pollOne w close tick k o'
                         | None => mret o'
                         end) in *.
    assert (Hbody : match devenvs !! k with
                    | Some _ => pollOne w close tick k devenvs
                    | None => mret devenvs
                    end m = pollOne w close tick k devenvs m).
    { destruct (devenvs !! k) eqn:Hd; [done |]. by rewrite pollOne_None. }
    rewrite result_bind, store_bind, events_bind, Hbody.
    set (r1 := pollOne w close tick k devenvs m).
    destruct (IH (result r1) (store r1)) as (IHr & IHs & ms & IHe).
    assert (Hother : ∀ id, id ≠ k →
              result r1 !! id = devenvs !! id ∧ store r1 !! id = m !! id).
    { intros id Hne. subst r1. destruct (devenvs !! k) as [d|] eqn:Hd.
      - rewrite (pollOne_Some _ _ _ d) by done. unfold result, store; cbn.
        split.
        + destruct (stillWatched _); [done | by apply lookup_delete_ne].
        + destruct (writesStore _); [by apply lookup_delete_ne | done].
      - by rewrite pollOne_None. }
    assert (Hself : result r1 !! k = afterQuery w tick k (devenvs !! k)
              ∧ store r1 !! k = storedAfterQuery w tick k (devenvs !! k) (m !! k)
              ∧ events r1 = eventsOfKey w close tick devenvs (λ _, m) k).
    { subst r1. unfold eventsOfKey. destruct (devenvs !! k) as [d|] eqn:Hd.
      - rewrite (pollOne_Some _ _ _ d) by done. unfold result, store, events; cbn.
        split_and!; [| | done].
        + destruct (stillWatched _); [done | apply lookup_delete_eq].
        + destruct (writesStore _); [apply lookup_delete_eq | done].
      - rewrite pollOne_None by done. by cbn. }
    destruct Hself as (Hselfr & Hselfs & Hselfe).
    split_and!.
    + intros id. rewrite IHr. destruct (decide (id = k)) as [-> | Hne].
      * rewrite decide_False by done. by rewrite decide_True by left.
      * destruct (Hother id Hne) as [-> _].
        destruct (decide (id ∈ ks)) as [Hin | Hin].
        -- by rewrite decide_True by (by right).
        -- rewrite decide_False; [done |]. by intros [? | ?]%elem_of_cons.
    + intros id. rewrite IHs. destruct (decide (id = k)) as [-> | Hne].
      * rewrite decide_False by done. by rewrite decide_True by left.
      * destruct (Hother id Hne) as [Hr ->]. rewrite Hr.
        destruct (decide (id ∈ ks)) as [Hin | Hin].
        -- by rewrite decide_True by (by right).
        -- rewrite decide_False; [done |]. by intros [? | ?]%elem_of_cons.
    + exists (λ k', if decide (k' = k) then m else ms k').
      cbn [flat_map]. rewrite Hselfe, IHe. f_equal.
      * unfold eventsOfKey. by rewrite decide_True by done.
      * apply flat_map_agree. intros k' Hk'. unfold eventsOfKey.
        assert (k' ≠ k) as Hne by (intros ->; done).
        destruct (Hother k' Hne) as [-> _]. by rewrite decide_False by done.
Qed.

(** The working set after a tick: the records whose row keeps them. *)
Lemma pollTick_result (devenvs m : DevEnvs) id :
  result (pollTick w close tick devenvs m) !! id
  = afterQuery w tick id (devenvs !! id).
Proof.
  unfold pollTick, forIn.
  destruct (poll_keys (keys devenvs) (keys_NoDup devenvs) devenvs m)
    as (Hr & _ & _).
  rewrite Hr. case_decide as Hin; [done |].
  destruct (devenvs !! id) eqn:Hd; [| done].
  exfalso. apply Hin, elem_of_keys. eauto.
Qed.

(** The memento after a tick: only the records whose query failed are
    gone. *)
Lemma pollTick_store (devenvs m : DevEnvs) id :
  store (pollTick w close tick devenvs m) !! id
  = storedAfterQuery w tick id (devenvs !! id) (m !! id).
Proof.
  unfold pollTick, forIn.
  destruct (poll_keys (keys devenvs) (keys_NoDup devenvs) devenvs m)
    as (_ & Hs & _).
  rewrite Hs. case_decide as Hin; [done |].
  destruct (devenvs !! id) eqn:Hd; [| done].
  exfalso. apply Hin, elem_of_keys. eauto.
Qed.

(** The trace of a tick: the actions of each record of the working set,
    one record after the other. *)
Lemma pollTick_events (devenvs m : DevEnvs) :
  ∃ ms, events (pollTick w close tick devenvs m)
        = flat_map (λ kd, recordEvents w close tick kd.1 kd.2 (ms kd.1))
            (map_to_list devenvs).
Proof.
  unfold pollTick, forIn.
  destruct (poll_keys (keys devenvs) (keys_NoDup devenvs) devenvs m)
    as (_ & _ & ms & He).
  exists ms. rewrite He. unfold keys.
  assert (Hgen : ∀ l : list (string * DevEnvMemento),
             (∀ kd, kd ∈ l → devenvs !! kd.1 = Some kd.2) →
             flat_map (eventsOfKey w close tick devenvs ms) l.*1
             = flat_map (λ kd, recordEvents w close tick kd.1 kd.2 (ms kd.1)) l).
  { induction l as [|[k d] l IHl]; intros Hl; [done |].
    rewrite fmap_cons. cbn [flat_map fst snd]. f_equal.
    - unfold eventsOfKey. pose proof (Hl (k, d) ltac:(left)) as Hkd.
      cbn in Hkd. by rewrite Hkd.
    - apply IHl. intros kd Hkd. apply Hl. by right. }
  apply Hgen. intros [k d] Hkd. by apply elem_of_map_to_list.
Qed.

End Tick.

(** ** The trace of a tick *)

Lemma elem_of_flat_map {A} (f : A → list Event) (l : list A) e :
  e ∈ flat_map f l ↔ ∃ x, x ∈ l ∧ e ∈ f x.
Proof.
  rewrite list_elem_of_In, in_flat_map. split.
  - intros (x & Hx & He). exists x. by rewrite !list_elem_of_In.
  - intros (x & Hx & He). exists x. by rewrite <- !list_elem_of_In.
Qed.

(** Counting, in the concatenated traces of entries with distinct keys,
    events that only the entry of key [id] can produce. *)
Lemma count_flat_map_key (p : Event → bool)
    (F : string * DevEnvMemento → list Event) id
    (l : list (string * DevEnvMemento)) :
  NoDup l.*1 →
  (∀ kd, kd.1 ≠ id → countEvents p (F kd) = 0) →
  countEvents p (flat_map F l)
  = match (list_to_map l : DevEnvs) !! id with
    | Some d => countEvents p (F (id, d))
    | None => 0
    end.
Proof.
  intros Hnd Hother. induction l as [|[k d] l IH]; [done |].
  rewrite fmap_cons in Hnd. apply NoDup_cons in Hnd as [Hk Hnd].
  cbn [flat_map list_to_map foldr fst snd]. rewrite countEvents_app, IH by done.
  destruct (decide (k = id)) as [-> | Hne].
  - rewrite (not_elem_of_list_to_map_1 (M := gmap string)) by done.
    rewrite lookup_insert_eq. lia.
  - rewrite lookup_insert_ne by done. by rewrite (Hother (k, d)).
Qed.

Lemma String_eqb_refl (s : string) : String.eqb s s = true.
Proof. by apply String.eqb_eq. Qed.

Lemma String_eqb_ne (s1 s2 : string) : s1 ≠ s2 → String.eqb s1 s2 = false.
Proof. intros H. by apply String.eqb_neq. Qed.

Section TickTrace.
Variables (w : World) (close : bool) (tick : nat).

Lemma recordEvents_connect_other k id d m :
  k ≠ id → countEvents (isConnectFor id) (recordEvents w close tick k d m) = 0.
Proof.
  intros Hne. unfold recordEvents.
  destruct (verdict w tick k d); cbn; try done.
  rewrite String_eqb_ne by done.
  by destruct (connectResolves w tick k && close).
Qed.

Lemma recordEvents_connect_self id d m :
  countEvents (isConnectFor id) (recordEvents w close tick id d m)
  = match verdict w tick id d with VRunning => 1 | _ => 0 end.
Proof.
  unfold recordEvents. destruct (verdict w tick id d); cbn; try done.
  rewrite String_eqb_refl.
  by destruct (connectResolves w tick id && close).
Qed.

Lemma recordEvents_query_other k id d m :
  k ≠ id → countEvents (isQueryFor id) (recordEvents w close tick k d m) = 0.
Proof.
  intros Hne. unfold recordEvents. cbn. rewrite String_eqb_ne by done.
  destruct (verdict w tick k d); cbn; try done.
  by destruct (connectResolves w tick k && close).
Qed.

Lemma recordEvents_query_self id d m :
  countEvents (isQueryFor id) (recordEvents w close tick id d m) = 1.
Proof.
  unfold recordEvents. cbn. rewrite String_eqb_refl.
  destruct (verdict w tick id d); cbn; try done.
  by destruct (connectResolves w tick id && close).
Qed.

(** In a tick the connect command runs for [id] once if [id] is watched
    and reported running, and not at all otherwise. *)
Lemma pollTick_connect_count (devenvs m : DevEnvs) id :
  countEvents (isConnectFor id) (events (pollTick w close tick devenvs m))
  = match devenvs !! id with
    | Some d => match verdict w tick id d with VRunning => 1 | _ => 0 end
    | None => 0
    end.
Proof.
  destruct (pollTick_events w close tick devenvs m) as [ms ->].
  rewrite (count_flat_map_key _ _ id) by
    (apply NoDup_fst_map_to_list ||
     (intros [k d] Hne; by apply recordEvents_connect_other)).
  rewrite list_to_map_to_list.
  destruct (devenvs !! id) as [d|]; [| done].
  apply recordEvents_connect_self.
Qed.

(** In a tick every watched record is queried exactly once. *)
Lemma pollTick_query_count (devenvs m : DevEnvs) id :
  countEvents (isQueryFor id) (events (pollTick w close tick devenvs m))
  = match devenvs !! id with Some _ => 1 | None => 0 end.
Proof.
  destruct (pollTick_events w close tick devenvs m) as [ms ->].
  rewrite (count_flat_map_key _ _ id) by
    (apply NoDup_fst_map_to_list ||
     (intros [k d] Hne; by apply recordEvents_query_other)).
  rewrite list_to_map_to_list.
  destruct (devenvs !! id) as [d|]; [| done].
  apply recordEvents_query_self.
Qed.

(** Every event of a tick belongs to the query of a watched record. *)
Lemma pollTick_event_inv (devenvs m : DevEnvs) e :
  e ∈ events (pollTick w close tick devenvs m) →
  ∃ id d m', devenvs !! id = Some d ∧ e ∈ recordEvents w close tick id d m'.
Proof.
  destruct (pollTick_events w close tick devenvs m) as [ms ->].
  intros ([k d] & Hkd & He)%elem_of_flat_map.
  apply elem_of_map_to_list in Hkd. by exists k, d, (ms k).
Qed.

(** The events of a watched record's query are in the trace of the tick,
    up to the value the memento had at that point. *)
Lemma pollTick_event_intro (devenvs m : DevEnvs) id d :
  devenvs !! id = Some d →
  ∃ m', ∀ e, e ∈ recordEvents w close tick id d m' →
             e ∈ events (pollTick w close tick devenvs m).
Proof.
  intros Hd. destruct (pollTick_events w close tick devenvs m) as [ms ->].
  exists (ms id). intros e He. apply elem_of_flat_map.
  exists (id, d). split; [by apply elem_of_map_to_list | done].
Qed.

Lemma pollTick_query (devenvs m : DevEnvs) id d :
  devenvs !! id = Some d →
  GetDevEnvironment id (spaceName d) (projectName d)
    ∈ events (pollTick w close tick devenvs m).
Proof.
  intros Hd. destruct (pollTick_event_intro devenvs m id d Hd) as [m' Hin].
  apply Hin. unfold recordEvents. left.
Qed.

End TickTrace.

(** ** The poll loop *)

Section Loop.
Variables (w : World) (close : bool).

(** The loop returns once the working set is empty. *)
Lemma pollLoop_empty fuel tick (devenvs m : DevEnvs) :
  size devenvs = 0 →
  pollLoop w close (S fuel) tick devenvs m = ((Returned, devenvs), m, []).
Proof. intros Hsz. cbn [pollLoop]. by rewrite Hsz. Qed.

(** A cancelled tick releases the claims and returns. *)
Lemma pollLoop_cancelled fuel tick (devenvs m : DevEnvs) :
  0 < size devenvs →
  isCancellationRequested w tick = true →
  pollLoop w close (S fuel) tick devenvs m
  = ((Returned, markWatched false devenvs), markWatched false devenvs,
     [MementoUpdate (markWatched false devenvs)]).
Proof.
  intros Hsz Hc. cbn [pollLoop].
  apply Nat.ltb_lt in Hsz. by rewrite Hsz, Hc.
Qed.

(** Any other tick polls the working set, sleeps, and loops. *)
Lemma pollLoop_step fuel tick (devenvs m : DevEnvs) :
  0 < size devenvs →
  isCancellationRequested w tick = false →
  let r := pollTick w close tick devenvs m in
  let r' := pollLoop w close fuel (S tick) (result r) (store r) in
  pollLoop w close (S fuel) tick devenvs m
  = (result r', store r', events r ++ Sleep RECONNECT_TIMER :: events r').
Proof.
  intros Hsz Hc. cbn [pollLoop].
  apply Nat.ltb_lt in Hsz. by rewrite Hsz, Hc.
Qed.

Lemma size_pos_lookup (devenvs : DevEnvs) id d :
  devenvs !! id = Some d → 0 < size devenvs.
Proof.
  intros Hd. enough (size devenvs ≠ 0) by lia.
  apply map_size_ne_0_lookup. eauto.
Qed.

(** Over a whole run the connect command runs at most once for an id,
    and only for an id that is watched. *)
Lemma pollLoop_connect_bound id fuel : ∀ tick (devenvs m : DevEnvs),
  countEvents (isConnectFor id) (events (pollLoop w close fuel tick devenvs m))
  ≤ match devenvs !! id with Some _ => 1 | None => 0 end.
Proof.
  induction fuel as [|fuel IH]; intros tick devenvs m; [cbn; lia |].
  destruct (decide (size devenvs = 0)) as [Hz | Hnz].
  { rewrite pollLoop_empty by done. cbn. lia. }
  destruct (isCancellationRequested w tick) eqn:Hc.
  { rewrite pollLoop_cancelled by (done || lia). cbn. lia. }
  rewrite pollLoop_step by (done || lia). unfold events at 1. cbn [snd].
  rewrite countEvents_app. cbn [countEvents isConnectFor].
  rewrite pollTick_connect_count.
  specialize (IH (S tick) (result (pollTick w close tick devenvs m))
                (store (pollTick w close tick devenvs m))).
  rewrite pollTick_result in IH. unfold afterQuery in IH.
  destruct (devenvs !! id) as [d|]; [| cbn in *; lia].
  destruct (verdict w tick id d); cbn in *; lia.
Qed.

(** Once [id] has left the working set the connect command never runs
    for it. *)
Lemma pollLoop_connect_unwatched id fuel tick (devenvs m : DevEnvs) :
  devenvs !! id = None →
  countEvents (isConnectFor id) (events (pollLoop w close fuel tick devenvs m))
  = 0.
Proof.
  intros Hd. pose proof (pollLoop_connect_bound id fuel tick devenvs m) as H.
  rewrite Hd in H. lia.
Qed.

(** A record that has left the working set stays out of it. *)
Lemma pollLoop_result_unwatched id fuel : ∀ tick (devenvs m : DevEnvs),
  devenvs !! id = None →
  (result (pollLoop w close fuel tick devenvs m)).2 !! id = None.
Proof.
  induction fuel as [|fuel IH]; intros tick devenvs m Hd; [done |].
  destruct (decide (size devenvs = 0)) as [Hz | Hnz].
  { by rewrite pollLoop_empty by done. }
  destruct (isCancellationRequested w tick) eqn:Hc.
  { rewrite pollLoop_cancelled by (done || lia). unfold result; cbn.
    by rewrite markWatched_lookup, Hd. }
  rewrite pollLoop_step by (done || lia). unfold result at 1; cbn [fst].
  apply IH. by rewrite pollTick_result, Hd.
Qed.

(** Without the single-environment flag, no run closes the window. *)
Lemma recordEvents_no_close tick id d m :
  close = false →
  countEvents isCloseWindow (recordEvents w close tick id d m) = 0.
Proof.
  intros ->. unfold recordEvents. rewrite andb_false_r.
  by destruct (verdict w tick id d).
Qed.

Lemma pollLoop_no_close fuel : close = false → ∀ tick (devenvs m : DevEnvs),
  countEvents isCloseWindow (events (pollLoop w close fuel tick devenvs m)) = 0.
Proof.
  intros Hclose. induction fuel as [|fuel IH]; intros tick devenvs m; [done |].
  destruct (decide (size devenvs = 0)) as [Hz | Hnz].
  { by rewrite pollLoop_empty by done. }
  destruct (isCancellationRequested w tick) eqn:Hc.
  { by rewrite pollLoop_cancelled by (done || lia). }
  rewrite pollLoop_step by (done || lia). unfold events at 1. cbn [snd].
  rewrite countEvents_app. cbn [countEvents isCloseWindow]. rewrite IH.
  enough (countEvents isCloseWindow
            (events (pollTick w close tick devenvs m)) = 0) as -> by done.
  apply countEvents_0. intros e He.
  apply pollTick_event_inv in He as (id & d & m' & _ & He).
  pose proof (recordEvents_no_close tick id d m' Hclose) as H0.
  rewrite countEvents_0 in H0. by apply H0.
Qed.

End Loop.

(** [pollDevEnvs] is the claim followed by the loop. *)
Lemma pollDevEnvs_events w fuel (devenvs m : DevEnvs) :
  events (pollDevEnvs w fuel devenvs m)
  = MementoUpdate (markWatched true devenvs)
    :: events (pollLoop w (size devenvs =? 1) fuel 0
                 (markWatched true devenvs) (markWatched true devenvs)).
Proof. rewrite <- (markWatched_size true devenvs). reflexivity. Qed.

Lemma pollDevEnvs_result w fuel (devenvs m : DevEnvs) :
  result (pollDevEnvs w fuel devenvs m)
  = result (pollLoop w (size devenvs =? 1) fuel 0
              (markWatched true devenvs) (markWatched true devenvs)).
Proof. rewrite <- (markWatched_size true devenvs). reflexivity. Qed.

(** No watch cycle runs the connect command twice for one id. *)
Lemma pollDevEnvs_connect_bound w id fuel (devenvs m : DevEnvs) :
  countEvents (isConnectFor id) (events (pollDevEnvs w fuel devenvs m)) ≤ 1.
Proof.
  rewrite pollDevEnvs_events. cbn [countEvents isConnectFor].
  pose proof (pollLoop_connect_bound w (size devenvs =? 1) id fuel 0
                (markWatched true devenvs) (markWatched true devenvs)) as H.
  destruct (markWatched true devenvs !! id); lia.
Qed.

(** ** Reading the status *)

Lemma verdict_running w tick id d metadata :
  getDevEnvironment w tick id (spaceName d) (projectName d) = Some metadata →
  status metadata = Some "RUNNING" →
  verdict w tick id d = VRunning.
Proof. intros Hq Hst. unfold verdict, isRunning. by rewrite Hq, Hst. Qed.

Lemma isTerminating_statuses metadata st :
  status metadata = Some st →
  st ∈ ["FAILED"; "DELETING"; "DELETED"] →
  isRunning metadata = false ∧ isTerminating metadata = true.
Proof.
  intros Hst Hin. unfold isRunning, isTerminating. rewrite Hst.
  repeat (apply elem_of_cons in Hin as [-> | Hin]; [by cbn |]).
  inversion Hin.
Qed.

Lemma verdict_terminating w tick id d metadata st :
  getDevEnvironment w tick id (spaceName d) (projectName d) = Some metadata →
  status metadata = Some st →
  st ∈ ["FAILED"; "DELETING"; "DELETED"] →
  verdict w tick id d = VTerminating.
Proof.
  intros Hq Hst Hin. unfold verdict. rewrite Hq.
  by destruct (isTerminating_statuses metadata st Hst Hin) as [-> ->].
Qed.

Lemma verdict_error w tick id d :
  getDevEnvironment w tick id (spaceName d) (projectName d) = None →
  verdict w tick id d = VError.
Proof. intros Hq. unfold verdict. by rewrite Hq. Qed.

Lemma verdict_withAttemptingReconnect w tick id b d :
  verdict w tick id (withAttemptingReconnect b d) = verdict w tick id d.
Proof. reflexivity. Qed.

Lemma count_one_unique (p : Event → bool) (evs : list Event) e e' :
  countEvents p evs = 1 →
  e ∈ evs → p e = true → e' ∈ evs → p e' = true → e = e'.
Proof.
  induction evs as [|x evs IH]; intros Hc He Hp He' Hp'; [inversion He |].
  cbn in Hc. apply elem_of_cons in He as [-> | He];
    apply elem_of_cons in He' as [-> | He']; [done | | |].
  - rewrite Hp in Hc. assert (countEvents p evs = 0) as H0 by lia.
    rewrite countEvents_0 in H0. rewrite (H0 e' He') in Hp'. done.
  - rewrite Hp' in Hc. assert (countEvents p evs = 0) as H0 by lia.
    rewrite countEvents_0 in H0. rewrite (H0 e He) in Hp. done.
  - destruct (p x).
    + assert (countEvents p evs = 0) as H0 by lia.
      rewrite countEvents_0 in H0. rewrite (H0 e He) in Hp. done.
    + apply IH; done.
Qed.

(** ** The transition table *)

(** C1.  A watched record whose status query returns RUNNING: the connect
    command (the reconnect-and-open sequence) runs for it exactly once over
    the run of the loop from that tick on, with the record's space, project
    and saved workspace path, and no watch cycle runs it more than once for
    one id; the record leaves the working set for good; handling it writes
    nothing to the memento, which still holds under its id what it held
    before the tick. *)
Theorem running_record_opened_once w close fuel tick (devenvs m : DevEnvs)
    id details metadata :
  devenvs !! id = Some details →
  isCancellationRequested w tick = false →
  getDevEnvironment w tick id (spaceName details) (projectName details)
    = Some metadata →
  status metadata = Some "RUNNING" →
  let r := pollTick w close tick devenvs m in
  let run := pollLoop w close (S fuel) tick devenvs m in
  ConnectCommand id (spaceName details) (projectName details)
    (previousVscodeWorkspace details) ∈ events r
  ∧ countEvents (isConnectFor id) (events run) = 1
  ∧ (∀ sp pr ws, ConnectCommand id sp pr ws ∈ events run →
       sp = spaceName details ∧ pr = projectName details
       ∧ ws = previousVscodeWorkspace details)
  ∧ (∀ cycle (watched stored : DevEnvs),
       countEvents (isConnectFor id)
         (events (pollDevEnvs w cycle watched stored)) ≤ 1)
  ∧ result r !! id = None
  ∧ (result run).2 !! id = None
  ∧ store (pollOne w close tick id devenvs m) = m
  ∧ store r !! id = m !! id.
Proof.
  intros Hd Hc Hq Hst r run.
  pose proof (verdict_running w tick id details metadata Hq Hst) as Hv.
  pose proof (size_pos_lookup devenvs id details Hd) as Hsz.
  assert (Hin : ConnectCommand id (spaceName details) (projectName details)
                  (previousVscodeWorkspace details) ∈ events r).
  { destruct (pollTick_event_intro w close tick devenvs m id details Hd)
      as [m' Hin].
    apply Hin. unfold recordEvents. rewrite Hv.
    do 3 right. left. }
  assert (Hgone : result r !! id = None).
  { subst r. rewrite pollTick_result, Hd. unfold afterQuery. by rewrite Hv. }
  assert (Hrun : events run
                 = events r ++ Sleep RECONNECT_TIMER ::
                   events (pollLoop w close fuel (S tick) (result r) (store r))).
  { subst run r. by rewrite pollLoop_step by done. }
  assert (Hcount : countEvents (isConnectFor id) (events run) = 1).
  { rewrite Hrun, countEvents_app. cbn [countEvents isConnectFor].
    rewrite pollLoop_connect_unwatched by done.
    subst r. rewrite pollTick_connect_count, Hd, Hv. lia. }
  split_and!; [done | done | | | done | | |].
  - intros sp pr ws Hin'.
    assert (ConnectCommand id sp pr ws
            = ConnectCommand id (spaceName details) (projectName details)
                (previousVscodeWorkspace details)) as Heq.
    { apply (count_one_unique (isConnectFor id) (events run));
        [done | done | cbn; apply String_eqb_refl | | cbn; apply String_eqb_refl].
      rewrite Hrun. apply elem_of_app. by left. }
    by inversion Heq.
  - intros cycle watched stored. apply pollDevEnvs_connect_bound.
  - subst run. rewrite pollLoop_step by done. unfold result at 1; cbn [fst].
    by apply pollLoop_result_unwatched.
  - rewrite (pollOne_Some _ _ _ _ _ _ details) by done. by rewrite Hv.
  - subst r. rewrite pollTick_store, Hd. unfold storedAfterQuery. by rewrite Hv.
Qed.

Lemma running_record_opened_once_witness :
  ConnectCommand "env-1" "space" "shop" "/projects/backend"
    ∈ events (pollTick runningWorld false 0 twoStore twoStore)
  ∧ countEvents (isConnectFor "env-1")
      (events (pollLoop runningWorld false 3 0 twoStore twoStore)) = 1.
Proof.
  pose proof (running_record_opened_once runningWorld false 2 0 twoStore
                twoStore "env-1" backendRecord
                {| status := Some "RUNNING" |}
                eq_refl eq_refl eq_refl eq_refl) as H.
  cbv zeta in H. destruct H as (H1 & H2 & _). exact (conj H1 H2).
Defined.

(** C2, as the code has it.  A watched record whose status query returns
    FAILED, DELETING or DELETED: termination is reported, the record leaves
    the working set for good, the connect command never runs for it, and
    handling it writes nothing to the memento: the record stays in the
    persisted store. *)
Theorem terminating_record_unwatched w close fuel tick (devenvs m : DevEnvs)
    id details metadata st :
  devenvs !! id = Some details →
  getDevEnvironment w tick id (spaceName details) (projectName details)
    = Some metadata →
  status metadata = Some st →
  st ∈ ["FAILED"; "DELETING"; "DELETED"] →
  let r := pollTick w close tick devenvs m in
  ProgressReport ("Dev environment " +:+ getDevEnvName (alias details) id
                  +:+ " is terminating") ∈ events r
  ∧ result r !! id = None
  ∧ countEvents (isConnectFor id) (events r) = 0
  ∧ countEvents (isConnectFor id)
      (events (pollLoop w close fuel (S tick) (result r) (store r))) = 0
  ∧ store (pollOne w close tick id devenvs m) = m
  ∧ store r !! id = m !! id.
Proof.
  intros Hd Hq Hst Hin r.
  pose proof (verdict_terminating w tick id details metadata st Hq Hst Hin)
    as Hv.
  assert (Hgone : result r !! id = None).
  { subst r. rewrite pollTick_result, Hd. unfold afterQuery. by rewrite Hv. }
  split_and!; [| done | | | |].
  - destruct (pollTick_event_intro w close tick devenvs m id details Hd)
      as [m' Hev].
    apply Hev. unfold recordEvents. rewrite Hv. right. left.
  - subst r. by rewrite pollTick_connect_count, Hd, Hv.
  - by apply pollLoop_connect_unwatched.
  - rewrite (pollOne_Some _ _ _ _ _ _ details) by done. by rewrite Hv.
  - subst r. rewrite pollTick_store, Hd. unfold storedAfterQuery. by rewrite Hv.
Qed.

Lemma terminating_record_unwatched_witness :
  result (pollTick failedWorld true 0 oneStore oneStore) !! "env-1" = None
  ∧ store (pollTick failedWorld true 0 oneStore oneStore) !! "env-1"
    = oneStore !! "env-1".
Proof.
  pose proof (terminating_record_unwatched failedWorld true 2 0 oneStore
                oneStore "env-1" backendRecord
                {| status := Some "FAILED" |} "FAILED"
                eq_refl eq_refl eq_refl ltac:(left)) as H.
  cbv zeta in H. destruct H as (_ & H2 & _ & _ & _ & H6). exact (conj H2 H6).
Defined.

(** C2 as the spec states it fails: the only record of the store fails,
    the watch cycle runs to its end with an empty working set, and the
    record is still in the persisted store. *)
Lemma terminating_record_stays_in_store :
  oneStore !! "env-1" = Some backendRecord
  ∧ getDevEnvironment failedWorld 0 "env-1" "space" "shop"
    = Some {| status := Some "FAILED" |}
  ∧ result (pollDevEnvs failedWorld 2 oneStore oneStore) = (Returned, ∅)
  ∧ store (pollDevEnvs failedWorld 2 oneStore oneStore) !! "env-1"
    = Some (withAttemptingReconnect true backendRecord)
  ∧ store (pollDevEnvs failedWorld 2 oneStore oneStore) !! "env-1" ≠ None.
Proof.
  repeat split; try (vm_compute; reflexivity).
  vm_compute. discriminate.
Qed.

(** C3 at its failing input.  The only record is stopped and expired: the
    tick reports the expiry and keeps the record in the working set, so the
    next tick queries it and reports again, and the loop is still polling. *)
Theorem expired_record_still_watched :
  isExpired (pollNow expiredWorld 0 "env-1")
    (previousConnectionTimestamp backendRecord) = true
  ∧ result (pollTick expiredWorld true 0 claimedStore claimedStore)
    = claimedStore
  ∧ events (pollTick expiredWorld true 0 claimedStore claimedStore)
    = [GetDevEnvironment "env-1" "space" "shop";
       ProgressReport "Dev environment backend has expired"]
  ∧ result (pollDevEnvs expiredWorld 3 oneStore oneStore)
    = (StillPolling, claimedStore)
  ∧ countEvents (isQueryFor "env-1")
      (events (pollDevEnvs expiredWorld 3 oneStore oneStore)) = 3.
Proof. split_and!; vm_compute; reflexivity. Qed.

(** ** Building the working set *)

(** C4.  [filterInvalidDevEnvs] keeps exactly the records of the store that
    are not expired at the time they are examined and that no watcher has
    claimed; this is the working set [reconnectDevEnvs] starts from. *)
Theorem filter_keeps_valid_records (now : string → Z) (pending : DevEnvs) id d :
  filterInvalidDevEnvs now pending !! id = Some d
  ↔ pending !! id = Some d
    ∧ (now id - previousConnectionTimestamp d ≤ MAX_RECONNECT_TIME)%Z
    ∧ attemptingReconnect d = false.
Proof.
  rewrite filterInvalidDevEnvs_lookup. unfold isExpired.
  destruct (pending !! id) as [d'|]; [| split; [done | by intros [? _]]].
  destruct (Z.ltb_spec MAX_RECONNECT_TIME
              (now id - previousConnectionTimestamp d')) as [Hlt | Hle];
    destruct (attemptingReconnect d') eqn:Ha; cbn.
  - split; [done |]. intros ([= <-] & Hle' & _). lia.
  - split; [done |]. intros ([= <-] & Hle' & _). lia.
  - split; [done |]. intros ([= <-] & _ & Hf). congruence.
  - split.
    + by intros [= <-].
    + by intros (Heq & _).
Qed.

Lemma reconnectDevEnvs_nonempty w fuel (m : DevEnvs) :
  filterInvalidDevEnvs (filterNow w) m ≠ ∅ →
  reconnectDevEnvs w fuel m
  = let valid := filterInvalidDevEnvs (filterNow w) m in
    let title := "The following devenvs are restarting: "
                 +:+ join ", " ((λ entry, getDevEnvName (alias entry.2) entry.1)
                                  <$> map_to_list valid) in
    let run := pollLoop w (size (markWatched true valid) =? 1) fuel 0
                 (markWatched true valid) (markWatched true valid) in
    (tt, store run,
     ProgressReport title :: MementoUpdate (markWatched true valid)
       :: events run).
Proof.
  intros Hne. unfold reconnectDevEnvs.
  apply map_size_non_empty_iff in Hne.
  unfold mbind at 1, prog_mbind, prog_bind, memento_get. cbn [result store fst snd].
  destruct (size _ =? 0) eqn:Hsz; [apply Nat.eqb_eq in Hsz; done |].
  unfold pollDevEnvs, setWatchedDevEnvStatus.
  unfold mbind, prog_mbind, prog_bind, mret, prog_mret, prog_ret, emit,
    memento_update, result, store, events.
  cbn [fst snd app]. by rewrite app_nil_r.
Qed.

(** C5.  When the working set is not empty, the watcher's first write to
    the memento is the claim: one update whose value holds every record of
    the working set, each with [attemptingReconnect] set.  Only a progress
    message precedes it, so every status query of the run comes after it. *)
Theorem claim_written_before_any_query w fuel (m : DevEnvs) :
  filterInvalidDevEnvs (filterNow w) m ≠ ∅ →
  let valid := filterInvalidDevEnvs (filterNow w) m in
  let claimed := withAttemptingReconnect true <$> valid in
  ∃ title rest,
    events (reconnectDevEnvs w fuel m)
    = ProgressReport title :: MementoUpdate claimed :: rest
    ∧ (∀ id d, valid !! id = Some d →
         claimed !! id = Some (withAttemptingReconnect true d))
    ∧ (∀ id d, claimed !! id = Some d → attemptingReconnect d = true)
    ∧ dom claimed = dom valid
    ∧ (∀ pre q post,
         events (reconnectDevEnvs w fuel m) = pre ++ q :: post →
         isQuery q = true →
         MementoUpdate claimed ∈ pre).
Proof.
  intros Hne valid claimed.
  rewrite reconnectDevEnvs_nonempty by done. cbv zeta. fold valid.
  rewrite markWatched_fmap. fold claimed. unfold events at 1 3. cbn [snd].
  eexists _, _. split_and!; [reflexivity | | | |].
  - intros id d Hd. subst claimed. by rewrite lookup_fmap, Hd.
  - intros id d. subst claimed. rewrite lookup_fmap.
    destruct (valid !! id) as [d'|]; [| done]. by intros [= <-].
  - subst claimed. apply dom_fmap_L.
  - intros pre q post Heq Hq.
    destruct pre as [|e1 [|e2 pre]]; cbn in Heq.
    + inversion Heq; subst. done.
    + inversion Heq; subst. done.
    + inversion Heq; subst. right. left.
Qed.

Lemma claim_written_before_any_query_witness :
  ∃ title rest,
    events (reconnectDevEnvs runningWorld 2 twoStore)
    = ProgressReport title
        :: MementoUpdate (withAttemptingReconnect true
                            <$> filterInvalidDevEnvs (filterNow runningWorld)
                                  twoStore)
        :: rest.
Proof.
  assert (Hne : filterInvalidDevEnvs (filterNow runningWorld) twoStore ≠ ∅).
  { intros H. apply (f_equal (λ o : DevEnvs, o !! "env-1")) in H.
    vm_compute in H. discriminate H. }
  destruct (claim_written_before_any_query runningWorld 2 twoStore Hne)
    as (title & rest & H & _).
  exists title, rest. exact H.
Defined.

(** ** Cancellation *)

(** C6.  A tick that starts with a non-empty working set and sees the
    cancellation request writes the memento once, with the working set in
    which every record has [attemptingReconnect] cleared, and returns: the
    run makes no query, and whatever fuel is left is not used. *)
Theorem cancellation_releases_claims w close fuel tick (devenvs m : DevEnvs) :
  0 < size devenvs →
  isCancellationRequested w tick = true →
  let run := pollLoop w close (S fuel) tick devenvs m in
  (result run).1 = Returned
  ∧ events run = [MementoUpdate (store run)]
  ∧ (∀ id d, devenvs !! id = Some d →
       store run !! id = Some (withAttemptingReconnect false d))
  ∧ (∀ id d, store run !! id = Some d → attemptingReconnect d = false)
  ∧ countEvents isQuery (events run) = 0
  ∧ countEvents isStoreWrite (events run) = 1
  ∧ run = pollLoop w close 1 tick devenvs m.
Proof.
  intros Hsz Hc run. subst run. rewrite !pollLoop_cancelled by done.
  unfold result, store, events; cbn [fst snd].
  split_and!; [done | done | | | done | done | done].
  - intros id d Hd. by rewrite markWatched_lookup, Hd.
  - intros id d. rewrite markWatched_lookup.
    destruct (devenvs !! id) as [d'|]; [| done]. by intros [= <-].
Qed.

Lemma cancellation_releases_claims_witness :
  events (pollLoop cancelWorld false 3 1 twoStore twoStore)
  = [MementoUpdate (store (pollLoop cancelWorld false 3 1 twoStore twoStore))].
Proof.
  assert (Hsz : 0 < size twoStore) by (vm_compute; lia).
  destruct (cancellation_releases_claims cancelWorld false 2 1 twoStore twoStore
              Hsz eq_refl) as (_ & H & _).
  exact H.
Defined.

(** ** A failing status query *)

(** C7.  A watched record whose status query is rejected is deleted from
    the memento and from the working set, and a message naming it is shown.
    The failure does not stop the tick: every other watched record is
    queried in the same tick and handled by its own status, its entry in
    the memento is untouched unless its own query fails, and if it is still
    watched it is queried again at the next tick. *)
Theorem failed_query_drops_record w close fuel tick (devenvs m : DevEnvs)
    id details :
  devenvs !! id = Some details →
  getDevEnvironment w tick id (spaceName details) (projectName details) = None →
  let r := pollTick w close tick devenvs m in
  let run := pollLoop w close (S (S fuel)) tick devenvs m in
  result r !! id = None
  ∧ store r !! id = None
  ∧ ShowViewLogsMessage ("Unable to reconnect to $"
                         +:+ getDevEnvName (alias details) id) ∈ events r
  ∧ (∀ id' d', id' ≠ id → devenvs !! id' = Some d' →
       countEvents (isQueryFor id') (events r) = 1
       ∧ result r !! id' = afterQuery w tick id' (Some d')
       ∧ (getDevEnvironment w tick id' (spaceName d') (projectName d') ≠ None →
          store r !! id' = m !! id')
       ∧ (result r !! id' = Some d' →
          isCancellationRequested w tick = false →
          isCancellationRequested w (S tick) = false →
          2 ≤ countEvents (isQueryFor id') (events run))).
Proof.
  intros Hd Hq r run. pose proof (verdict_error w tick id details Hq) as Hv.
  split_and!.
  - subst r. rewrite pollTick_result, Hd. unfold afterQuery. by rewrite Hv.
  - subst r. rewrite pollTick_store, Hd. unfold storedAfterQuery. by rewrite Hv.
  - destruct (pollTick_event_intro w close tick devenvs m id details Hd)
      as [m' Hev].
    apply Hev. unfold recordEvents. rewrite Hv. do 2 right. left.
  - intros id' d' Hne Hd'. split_and!.
    + subst r. by rewrite pollTick_query_count, Hd'.
    + subst r. by rewrite pollTick_result, Hd'.
    + intros Hq'. subst r. rewrite pollTick_store, Hd'.
      unfold storedAfterQuery, verdict.
      destruct (getDevEnvironment w tick id' _ _) as [md|]; [| done].
      destruct (isRunning md); [done |]. destruct (isTerminating md); [done |].
      by destruct (isExpired _ _).
    + intros Hkept Hc Hc'. subst run.
      rewrite pollLoop_step by (done || by eapply size_pos_lookup).
      unfold events at 1; cbn [snd]. fold r.
      rewrite pollLoop_step by (done || by eapply size_pos_lookup).
      unfold events at 2; cbn [snd].
      rewrite !countEvents_app. cbn [countEvents isQueryFor].
      rewrite countEvents_app.
      subst r. rewrite !pollTick_query_count, Hd'.
      rewrite pollTick_result, Hd' in Hkept |- *. rewrite Hkept. lia.
Qed.

Lemma failed_query_drops_record_witness :
  result (pollTick errorWorld false 0 twoStore twoStore) !! "env-1" = None
  ∧ store (pollTick errorWorld false 0 twoStore twoStore) !! "env-1" = None
  ∧ ShowViewLogsMessage "Unable to reconnect to $backend"
      ∈ events (pollTick errorWorld false 0 twoStore twoStore).
Proof.
  destruct (failed_query_drops_record errorWorld false 0 0 twoStore twoStore
              "env-1" backendRecord eq_refl eq_refl) as (H1 & H2 & H3 & _).
  exact (conj H1 (conj H2 H3)).
Defined.

(** ** Calling the watcher again *)

Lemma reconnectDevEnvs_empty w fuel (m : DevEnvs) :
  filterInvalidDevEnvs (filterNow w) m = ∅ →
  reconnectDevEnvs w fuel m = (tt, m, []).
Proof.
  intros Hempty. unfold reconnectDevEnvs.
  unfold mbind at 1, prog_mbind, prog_bind, memento_get. cbn [result store fst snd].
  rewrite Hempty. by rewrite map_size_empty.
Qed.

(** After a first call has written its claim, every record of the store is
    claimed. *)
Lemma reconnectDevEnvs_claims_all w (m : DevEnvs) :
  filterInvalidDevEnvs (filterNow w) m ≠ ∅ →
  allClaimed (store (reconnectDevEnvs w 0 m)).
Proof.
  intros Hne. rewrite reconnectDevEnvs_nonempty by done.
  unfold store; cbn. intros id d. rewrite markWatched_lookup.
  destruct (_ !! id) as [d'|]; [| done]. by intros [= <-].
Qed.

(** C9.  On a store in which every record is already claimed, and more
    generally whenever the filtered set is empty, [reconnectDevEnvs]
    returns at once: the memento is not written, nothing is queried, no
    loop is started, and the trace is empty. *)
Theorem reconnect_claimed_store_noop w fuel (m : DevEnvs) :
  allClaimed m ∨ filterInvalidDevEnvs (filterNow w) m = ∅ →
  reconnectDevEnvs w fuel m = (tt, m, []).
Proof.
  intros [Hall | Hempty]; apply reconnectDevEnvs_empty; [| done].
  by apply filterInvalidDevEnvs_allClaimed.
Qed.

Lemma reconnect_claimed_store_noop_witness :
  let claimed := store (reconnectDevEnvs cancelWorld 0 twoStore) in
  reconnectDevEnvs runningWorld 5 claimed = (tt, claimed, []).
Proof.
  intros claimed. apply reconnect_claimed_store_noop. left.
  apply reconnectDevEnvs_claims_all.
  intros H. apply (f_equal (λ o : DevEnvs, o !! "env-1")) in H.
  vm_compute in H. discriminate H.
Defined.

(** ** Restart inside a dev environment *)

Lemma hasProperty_own envId (m : DevEnvs) devenv :
  m !! envId = Some devenv →
  hasProperty envId m = true ∧ aliasOfProperty envId m = alias devenv.
Proof.
  intros Hd. unfold hasProperty, aliasOfProperty. rewrite Hd.
  by rewrite bool_decide_eq_true_2 by eauto.
Qed.

Lemma hasProperty_inherited envId (m : DevEnvs) :
  m !! envId = None →
  hasProperty envId m = bool_decide (envId ∈ objectPrototypeProperties)
  ∧ aliasOfProperty envId m = None.
Proof.
  intros Hd. unfold hasProperty, aliasOfProperty. rewrite Hd.
  rewrite bool_decide_eq_false_2; [done |]. by intros [? ?].
Qed.

Lemma handleRestart_in_env w fuel envId (m : DevEnvs) :
  handleRestart w fuel (Some envId) m
  = if hasProperty envId m then
      (tt, delete envId m,
       [LogInfo ("codecatalyst: ssh session reconnected to devenv: "
                 +:+ getDevEnvName (aliasOfProperty envId m) envId);
        ShowInformationMessage
          ("Reconnected to dev environment: "
           +:+ getDevEnvName (aliasOfProperty envId m) envId);
        MementoUpdate (delete envId m)])
    else (tt, m, []).
Proof.
  unfold handleRestart, mbind, prog_mbind, prog_bind, memento_get.
  cbn [result store events fst snd].
  destruct (hasProperty envId m); reflexivity.
Qed.


(** ** Watching a single dev environment *)

Lemma isRunning_false metadata :
  status metadata ≠ Some "RUNNING" → isRunning metadata = false.
Proof.
  intros Hst. unfold isRunning. destruct (status metadata) as [st|]; [| done].
  destruct (String.eqb_spec st "RUNNING") as [-> | Hne]; done.
Qed.

Lemma verdict_waiting w tick id d metadata :
  getDevEnvironment w tick id (spaceName d) (projectName d) = Some metadata →
  status metadata ≠ Some "RUNNING" →
  isTerminating metadata = false →
  stillWatched (verdict w tick id d) = true.
Proof.
  intros Hq Hst Hterm. unfold verdict.
  rewrite Hq, (isRunning_false _ Hst), Hterm. by destruct (isExpired _ _).
Qed.

Lemma size_one_singleton (devenvs : DevEnvs) id d :
  size devenvs = 1 → devenvs !! id = Some d → devenvs = {[id := d]}.
Proof.
  intros Hsz Hd. rewrite <- (insert_delete_id devenvs id d Hd).
  assert (delete id devenvs = ∅) as ->; [| done].
  apply map_size_empty_iff. rewrite map_size_delete_Some by eauto. lia.
Qed.

Section Single.
Variables (w : World) (close : bool) (id : string) (d : DevEnvMemento).

(** A tick over a one-record working set is the query of that record. *)
Lemma pollTick_singleton tick (m : DevEnvs) :
  pollTick w close tick {[id := d]} m
  = (if stillWatched (verdict w tick id d) then {[id := d]} else ∅,
     if writesStore (verdict w tick id d) then delete id m else m,
     recordEvents w close tick id d m).
Proof.
  unfold pollTick, forIn, keys. rewrite map_to_list_singleton.
  cbn [fmap list_fmap fst forKeys]. rewrite lookup_singleton_eq.
  unfold mbind, prog_mbind, prog_bind, mret, prog_mret, prog_ret.
  rewrite (pollOne_Some _ _ _ _ _ _ d) by apply lookup_singleton_eq.
  unfold result, store, events; cbn [fst snd].
  rewrite app_nil_r, delete_singleton_eq. reflexivity.
Qed.

(** While the record is neither running nor gone, the loop goes on with
    the same working set and memento. *)
Lemma pollLoop_single_waiting fuel tick (m : DevEnvs) :
  isCancellationRequested w tick = false →
  stillWatched (verdict w tick id d) = true →
  let r' := pollLoop w close fuel (S tick) {[id := d]} m in
  pollLoop w close (S fuel) tick {[id := d]} m
  = (result r', store r',
     recordEvents w close tick id d m ++ Sleep RECONNECT_TIMER :: events r').
Proof.
  intros Hc Hv. cbv zeta.
  rewrite pollLoop_step by (done || (rewrite map_size_singleton; lia)).
  cbv zeta. rewrite pollTick_singleton, Hv.
  assert (writesStore (verdict w tick id d) = false) as ->
    by (by destruct (verdict w tick id d)).
  reflexivity.
Qed.

(** When the record is running, it is opened, and the loop returns after
    its sleep. *)
Lemma pollLoop_single_running fuel tick (m : DevEnvs) :
  isCancellationRequested w tick = false →
  verdict w tick id d = VRunning →
  pollLoop w close (S (S fuel)) tick {[id := d]} m
  = ((Returned, ∅), m,
     recordEvents w close tick id d m ++ [Sleep RECONNECT_TIMER]).
Proof.
  intros Hc Hv.
  rewrite pollLoop_step by (done || (rewrite map_size_singleton; lia)).
  cbv zeta. rewrite pollTick_singleton, Hv. cbn [stillWatched writesStore].
  unfold result at 1 2 3, store at 1 2, events at 1; cbn [fst snd].
  by rewrite pollLoop_empty by apply map_size_empty.
Qed.

End Single.

(** The run of the loop over one record that is running at tick [t0 + t]
    after [t] ticks of waiting, when the window is to be closed. *)
Lemma single_record_run w id d fuel : ∀ t t0 (m : DevEnvs),
  (∀ t', t' < t → isCancellationRequested w (t0 + t') = false
                  ∧ stillWatched (verdict w (t0 + t') id d) = true) →
  isCancellationRequested w (t0 + t) = false →
  verdict w (t0 + t) id d = VRunning →
  connectResolves w (t0 + t) id = true →
  let run := pollLoop w true (S (S t) + fuel) t0 {[id := d]} m in
  ∃ pre,
    events run
    = pre ++ [ConnectCommand id (spaceName d) (projectName d)
                (previousVscodeWorkspace d);
              Sleep 5000; CloseWindow; Sleep RECONNECT_TIMER]
    ∧ countEvents isCloseWindow pre = 0
    ∧ result run = (Returned, ∅).
Proof.
  induction t as [|t IH]; intros t0 m Hwait Hc Hv Hres run; subst run.
  - rewrite Nat.add_0_r in *. cbn [Nat.add].
    rewrite pollLoop_single_running by done.
    unfold recordEvents. rewrite Hv, Hres. cbn [andb].
    eexists [_; _; _]. split_and!; [reflexivity | done | done].
  - destruct (Hwait 0 ltac:(lia)) as [Hc0 Hv0]. rewrite Nat.add_0_r in Hc0, Hv0.
    change (S (S (S t)) + fuel) with (S (S (S t) + fuel)).
    rewrite pollLoop_single_waiting by done. cbv zeta.
    destruct (IH (S t0) m) as (pre & Hev & Hpre & Hr).
    + intros t' Ht'. replace (S t0 + t') with (t0 + S t') by lia.
      apply Hwait. lia.
    + by replace (S t0 + t) with (t0 + S t) by lia.
    + by replace (S t0 + t) with (t0 + S t) by lia.
    + by replace (S t0 + t) with (t0 + S t) by lia.
    + exists (recordEvents w true t0 id d m ++ Sleep RECONNECT_TIMER :: pre).
      unfold events at 1, result at 1; cbn [fst snd]. rewrite Hev.
      split_and!.
      * by rewrite <- app_assoc.
      * rewrite countEvents_app. cbn [countEvents isCloseWindow]. rewrite Hpre.
        unfold recordEvents. by destruct (verdict w t0 id d).
      * done.
Qed.

(** C8.  With one record in the initial working set: if the record is
    reported running at some tick, after any number of ticks in which it was
    neither running nor terminating and nothing was cancelled, and the
    connect command resolves, then the trace ends with the connect command,
    the five-second delay, the closing of the window and the loop's last
    sleep, and the window is not closed before that.  With two or more
    records in the initial working set no run ever closes the window. *)
Theorem single_record_closes_window w fuel (m : DevEnvs) :
  (∀ (devenvs : DevEnvs) id d t metadata,
     size devenvs = 1 →
     devenvs !! id = Some d →
     (∀ t', t' < t →
        isCancellationRequested w t' = false
        ∧ ∃ md, getDevEnvironment w t' id (spaceName d) (projectName d) = Some md
                ∧ status md ≠ Some "RUNNING" ∧ isTerminating md = false) →
     isCancellationRequested w t = false →
     getDevEnvironment w t id (spaceName d) (projectName d) = Some metadata →
     status metadata = Some "RUNNING" →
     connectResolves w t id = true →
     let run := pollDevEnvs w (S (S t) + fuel) devenvs m in
     ∃ pre,
       events run
       = pre ++ [ConnectCommand id (spaceName d) (projectName d)
                   (previousVscodeWorkspace d);
                 Sleep 5000; CloseWindow; Sleep RECONNECT_TIMER]
       ∧ countEvents isCloseWindow pre = 0
       ∧ result run = (Returned, ∅))
  ∧ (∀ devenvs : DevEnvs,
       2 ≤ size devenvs →
       countEvents isCloseWindow (events (pollDevEnvs w fuel devenvs m)) = 0).
Proof.
  split.
  - intros devenvs id d t metadata Hsz Hd Hwait Hc Hq Hst Hres run. subst run.
    rewrite (size_one_singleton devenvs id d Hsz Hd).
    rewrite pollDevEnvs_events, pollDevEnvs_result.
    rewrite markWatched_fmap, map_fmap_singleton, map_size_singleton.
    cbn [Nat.eqb].
    destruct (single_record_run w id (withAttemptingReconnect true d) fuel t 0
                {[id := withAttemptingReconnect true d]})
      as (pre & Hev & Hpre & Hr).
    + intros t' Ht'. destruct (Hwait t' Ht') as (Hc' & md & Hq' & Hst' & Hterm).
      split; [done |]. by apply (verdict_waiting _ _ _ _ md).
    + done.
    + by apply (verdict_running _ _ _ _ metadata).
    + done.
    + exists (MementoUpdate {[id := withAttemptingReconnect true d]} :: pre).
      rewrite Hev. split_and!; [done | done | done].
  - intros devenvs Hsz. rewrite pollDevEnvs_events.
    cbn [countEvents isCloseWindow].
    apply pollLoop_no_close. apply Nat.eqb_neq. lia.
Qed.

Lemma single_record_closes_window_witness :
  (∃ pre,
     events (pollDevEnvs restartWorld 3 oneStore oneStore)
     = pre ++ [ConnectCommand "env-1" "space" "shop" "/projects/backend";
               Sleep 5000; CloseWindow; Sleep RECONNECT_TIMER]
     ∧ countEvents isCloseWindow pre = 0
     ∧ result (pollDevEnvs restartWorld 3 oneStore oneStore) = (Returned, ∅))
  ∧ countEvents isCloseWindow
      (events (pollDevEnvs restartWorld 3 twoStore oneStore)) = 0.
Proof.
  destruct (single_record_closes_window restartWorld 0 oneStore) as [Hone _].
  destruct (single_record_closes_window restartWorld 3 oneStore) as [_ Htwo].
  split.
  - apply (Hone oneStore "env-1" backendRecord 1 {| status := Some "RUNNING" |});
      try reflexivity.
    intros t' Ht'. assert (t' = 0) as -> by lia.
    split; [reflexivity |]. exists {| status := Some "STARTING" |}.
    split; [reflexivity |]. split; [discriminate | reflexivity].
  - apply Htwo. vm_compute. lia.
Defined.

(** ** Saving, clearing and reporting a reconnection *)

Lemma setProperty_ordinary k v (o : DevEnvs) :
  k ≠ "__proto__" → setProperty k v o = <[k := v]> o.
Proof.
  intros Hk. unfold setProperty. rewrite String_eqb_ne by done.
  by destruct (o !! k).
Qed.

Lemma delete_setProperty k v (o : DevEnvs) :
  delete k (setProperty k v o) = delete k o.
Proof.
  unfold setProperty. destruct (o !! k); [apply delete_insert_eq |].
  destruct (String.eqb k "__proto__"); [done | apply delete_insert_eq].
Qed.

Lemma saveReconnectionInformation_run folders now devenv (m : DevEnvs) :
  saveReconnectionInformation folders now devenv m
  = (tt, setProperty (dev_id devenv) (savedRecord folders now devenv) m,
     [MementoUpdate
        (setProperty (dev_id devenv) (savedRecord folders now devenv) m)]).
Proof. reflexivity. Qed.

Lemma removeReconnectionInformation_run devenv (m : DevEnvs) :
  removeReconnectionInformation devenv m
  = (tt, delete (dev_id devenv) m, [MementoUpdate (delete (dev_id devenv) m)]).
Proof. reflexivity. Qed.

Lemma reconnectDevEnvs_store_unpolled w (m : DevEnvs) :
  filterInvalidDevEnvs (filterNow w) m ≠ ∅ →
  store (reconnectDevEnvs w 0 m)
  = markWatched true (filterInvalidDevEnvs (filterNow w) m).
Proof. intros Hne. by rewrite reconnectDevEnvs_nonempty. Qed.

(** [handleRestart] on a store without a record under the id. *)
Lemma handleRestart_no_record w fuel envId (m : DevEnvs) :
  m !! envId = None →
  handleRestart w fuel (Some envId) m
  = (tt, m,
     if bool_decide (envId ∈ objectPrototypeProperties)
     then [LogInfo ("codecatalyst: ssh session reconnected to devenv: "
                    +:+ envId);
           ShowInformationMessage ("Reconnected to dev environment: "
                                   +:+ envId);
           MementoUpdate m]
     else []).
Proof.
  intros Hd. rewrite handleRestart_in_env.
  destruct (hasProperty_inherited envId m Hd) as [-> ->].
  rewrite (delete_id m envId Hd).
  by destruct (bool_decide (envId ∈ objectPrototypeProperties)).
Qed.

(** X1.  A dev environment saved by [saveReconnectionInformation] under an
    id other than ["__proto__"] is picked up by the next watcher that looks
    within ten minutes of the save, whatever the store held under its id
    before (a claimed or an expired record is overwritten): the filter
    keeps the saved record, and the watcher's claim-write stores it
    flagged.  The other records of the store are not touched by the
    save. *)
Theorem saved_record_is_watched folders now devenv w (m : DevEnvs) :
  dev_id devenv ≠ "__proto__" →
  (filterNow w (dev_id devenv) - now ≤ MAX_RECONNECT_TIME)%Z →
  let saved := store (saveReconnectionInformation folders now devenv m) in
  filterInvalidDevEnvs (filterNow w) saved !! dev_id devenv
  = Some (savedRecord folders now devenv)
  ∧ store (reconnectDevEnvs w 0 saved) !! dev_id devenv
    = Some (withAttemptingReconnect true (savedRecord folders now devenv))
  ∧ (∀ id, id ≠ dev_id devenv → saved !! id = m !! id).
Proof.
  intros Hid Hfresh saved. subst saved.
  rewrite saveReconnectionInformation_run, !store_run.
  rewrite setProperty_ordinary by done.
  assert (Hkept : filterInvalidDevEnvs (filterNow w)
                    (<[dev_id devenv := savedRecord folders now devenv]> m)
                  !! dev_id devenv = Some (savedRecord folders now devenv)).
  { rewrite filterInvalidDevEnvs_lookup, lookup_insert_eq. unfold isExpired.
    cbn [previousConnectionTimestamp attemptingReconnect savedRecord].
    destruct (Z.ltb_spec MAX_RECONNECT_TIME (filterNow w (dev_id devenv) - now));
      [lia | done]. }
  split_and!; [done | |].
  - rewrite reconnectDevEnvs_store_unpolled.
    + by rewrite markWatched_lookup, Hkept.
    + intros Hempty. by rewrite Hempty in Hkept.
  - intros id Hne. by rewrite lookup_insert_ne.
Qed.

Lemma saved_record_is_watched_witness :
  store (reconnectDevEnvs runningWorld 0
           (store (saveReconnectionInformation (Some ["/home/me/shop"]) 4000
                     backendDevEnv claimedStore)))
    !! "env-1"
  = Some (withAttemptingReconnect true
            (savedRecord (Some ["/home/me/shop"]) 4000 backendDevEnv)).
Proof.
  assert (Hid : dev_id backendDevEnv ≠ "__proto__") by discriminate.
  assert (Hfresh : (filterNow runningWorld (dev_id backendDevEnv) - 4000
                    ≤ MAX_RECONNECT_TIME)%Z) by (vm_compute; discriminate).
  destruct (saved_record_is_watched (Some ["/home/me/shop"]) 4000 backendDevEnv
              runningWorld claimedStore Hid Hfresh) as (_ & H & _).
  exact H.
Defined.

(** X2.  [removeReconnectionInformation] after [saveReconnectionInformation]
    for the same dev environment leaves the store as a removal alone would:
    nothing under its id, every other record as it was. *)
Theorem remove_after_save folders now devenv (m : DevEnvs) :
  let saved := store (saveReconnectionInformation folders now devenv m) in
  let cleared := store (removeReconnectionInformation devenv saved) in
  cleared = store (removeReconnectionInformation devenv m)
  ∧ cleared !! dev_id devenv = None
  ∧ (∀ id, id ≠ dev_id devenv → cleared !! id = m !! id)
  ∧ (m !! dev_id devenv = None ↔ cleared = m).
Proof.
  cbv zeta. rewrite saveReconnectionInformation_run.
  rewrite !removeReconnectionInformation_run, !store_run.
  rewrite delete_setProperty.
  split_and!; [done | apply lookup_delete_eq | |].
  - intros id Hne. by apply lookup_delete_ne.
  - split.
    + apply delete_id.
    + intros Heq. rewrite <- Heq. apply lookup_delete_eq.
Qed.

(** X3.  When the editor restarts inside a dev environment that was saved
    for reconnection (under an id other than ["__proto__"]),
    [handleRestart] logs and shows the success message under a name and
    leaves the store as it was before the save, minus that id.  The name
    is the saved alias when there is one and it is not empty, and the id
    otherwise. *)
Theorem restart_after_save_clears folders now devenv w fuel (m : DevEnvs) :
  dev_id devenv ≠ "__proto__" →
  let saved := store (saveReconnectionInformation folders now devenv m) in
  ∃ name,
    handleRestart w fuel (Some (dev_id devenv)) saved
    = (tt, delete (dev_id devenv) m,
       [LogInfo ("codecatalyst: ssh session reconnected to devenv: " +:+ name);
        ShowInformationMessage ("Reconnected to dev environment: " +:+ name);
        MementoUpdate (delete (dev_id devenv) m)])
    ∧ (∀ a, dev_alias devenv = Some a → a ≠ "" → name = a)
    ∧ (dev_alias devenv = Some "" → name = dev_id devenv)
    ∧ (dev_alias devenv = None → name = dev_id devenv).
Proof.
  intros Hid saved. subst saved.
  rewrite saveReconnectionInformation_run, store_run.
  rewrite setProperty_ordinary by done.
  exists (getDevEnvName (dev_alias devenv) (dev_id devenv)).
  split_and!.
  - rewrite handleRestart_in_env.
    destruct (hasProperty_own (dev_id devenv)
                (<[dev_id devenv := savedRecord folders now devenv]> m)
                (savedRecord folders now devenv)) as [-> ->];
      [apply lookup_insert_eq |].
    by rewrite delete_insert_eq.
  - intros a -> Ha. unfold getDevEnvName. by rewrite String_eqb_ne.
  - by intros ->.
  - by intros ->.
Qed.

Lemma restart_after_save_clears_witness :
  handleRestart runningWorld 0 (Some "env-1")
    (store (saveReconnectionInformation None 4000 backendDevEnv oneStore))
  = (tt, delete "env-1" oneStore,
     [LogInfo "codecatalyst: ssh session reconnected to devenv: backend";
      ShowInformationMessage "Reconnected to dev environment: backend";
      MementoUpdate (delete "env-1" oneStore)]).
Proof.
  assert (Hid : dev_id backendDevEnv ≠ "__proto__") by discriminate.
  destruct (restart_after_save_clears None 4000 backendDevEnv runningWorld 0
              oneStore Hid) as (name & Hrun & Halias & _).
  rewrite (Halias "backend" eq_refl ltac:(discriminate)) in Hrun.
  exact Hrun.
Defined.

(** X4.  A second [handleRestart] with the same environment id, on the
    store the first run left, finds no record and leaves the store as it
    is.  It writes nothing and shows nothing: the restart is reported
    once.  The one exception is an id that names a property every object
    inherits, for which the [in] test succeeds on every run: then each run
    reports under the id and writes the unchanged store back. *)
Theorem restart_reported_once w fuel w' fuel' envId (m : DevEnvs) :
  let first := handleRestart w fuel (Some envId) m in
  store first !! envId = None
  ∧ handleRestart w' fuel' (Some envId) (store first)
    = (tt, store first,
       if bool_decide (envId ∈ objectPrototypeProperties)
       then [LogInfo ("codecatalyst: ssh session reconnected to devenv: "
                      +:+ envId);
             ShowInformationMessage ("Reconnected to dev environment: "
                                     +:+ envId);
             MementoUpdate (store first)]
       else []).
Proof.
  cbv zeta.
  assert (Hgone : store (handleRestart w fuel (Some envId) m) !! envId = None).
  { rewrite handleRestart_in_env.
    destruct (hasProperty envId m) eqn:Hin; rewrite store_run;
      [apply lookup_delete_eq |].
    destruct (m !! envId) as [d|] eqn:Hd; [| done].
    destruct (hasProperty_own envId m d Hd) as [Hown _]. congruence. }
  split; [done | by apply handleRestart_no_record].
Qed.

(** X5.  After [removeReconnectionInformation] the dev environment is
    forgotten: the store has nothing under its id, no watcher will poll it,
    removing it again writes the same store, and a restart inside it leaves
    the store as it is, silently unless the id names a property every
    object inherits. *)
Theorem removed_record_is_forgotten devenv now w fuel (m : DevEnvs) :
  let cleared := store (removeReconnectionInformation devenv m) in
  cleared !! dev_id devenv = None
  ∧ filterInvalidDevEnvs now cleared !! dev_id devenv = None
  ∧ store (removeReconnectionInformation devenv cleared) = cleared
  ∧ handleRestart w fuel (Some (dev_id devenv)) cleared
    = (tt, cleared,
       if bool_decide (dev_id devenv ∈ objectPrototypeProperties)
       then [LogInfo ("codecatalyst: ssh session reconnected to devenv: "
                      +:+ dev_id devenv);
             ShowInformationMessage ("Reconnected to dev environment: "
                                     +:+ dev_id devenv);
             MementoUpdate cleared]
       else []).
Proof.
  cbv zeta. rewrite !removeReconnectionInformation_run, !store_run.
  split_and!.
  - apply lookup_delete_eq.
  - by rewrite filterInvalidDevEnvs_lookup, lookup_delete_eq.
  - apply delete_id, lookup_delete_eq.
  - apply handleRestart_no_record, lookup_delete_eq.
Qed.

(** ** The one-shot listener *)

Lemma handleChanges_cons w fuel change changes flag (m : DevEnvs) :
  handleChanges w fuel (change :: changes) flag m
  = let r1 := onDidChangeActiveConnection w fuel change flag m in
    let r2 := handleChanges w fuel changes (result r1) (store r1) in
    (result r2, store r2, events r1 ++ events r2).
Proof. reflexivity. Qed.

Lemma listener_when_handled w fuel change (m : DevEnvs) :
  onDidChangeActiveConnection w fuel change true m = (true, m, []).
Proof. reflexivity. Qed.

Lemma listener_when_disconnected w fuel change (m : DevEnvs) :
  clientConnected change = false →
  onDidChangeActiveConnection w fuel change false m = (false, m, []).
Proof. intros Hc. unfold onDidChangeActiveConnection. by rewrite Hc. Qed.

Lemma listener_when_connected w fuel change (m : DevEnvs) :
  clientConnected change = true →
  onDidChangeActiveConnection w fuel change false m
  = (true, store (handleRestart w fuel (codeCatalystDevEnvId change) m),
     events (handleRestart w fuel (codeCatalystDevEnvId change) m)).
Proof.
  intros Hc. unfold onDidChangeActiveConnection. rewrite Hc.
  unfold mbind, prog_mbind, prog_bind, mret, prog_mret, prog_ret.
  unfold result, store, events; cbn [fst snd]. by rewrite app_nil_r.
Qed.

(** Once the flag is set, the listener does nothing, however many changes
    follow. *)
Lemma handleChanges_handled w fuel changes : ∀ m : DevEnvs,
  handleChanges w fuel changes true m = (true, m, []).
Proof.
  induction changes as [|change changes IH]; intros m; [done |].
  rewrite handleChanges_cons, listener_when_handled. cbv zeta.
  rewrite !result_run, !store_run, !events_run, IH. reflexivity.
Qed.

(** Changes whose client is not connected leave the flag unset and do
    nothing. *)
Lemma handleChanges_disconnected w fuel changes : ∀ m : DevEnvs,
  (∀ c, c ∈ changes → clientConnected c = false) →
  handleChanges w fuel changes false m = (false, m, []).
Proof.
  induction changes as [|change changes IH]; intros m Hdis; [done |].
  rewrite handleChanges_cons, listener_when_disconnected by (apply Hdis; left).
  cbv zeta. rewrite !result_run, !store_run, !events_run.
  rewrite IH; [done |]. intros c Hc. apply Hdis. by right.
Qed.

(** X6.  [watchRestartingDevEnvs] handles a restart once per process.  For
    connection changes handled one after the other: the changes whose
    client is not connected are ignored, the first change with a connected
    client runs [handleRestart] with the environment id read at that
    moment, and every later change is ignored; if no client is ever
    connected, nothing happens at all. *)
Theorem restart_is_handled_once w fuel (m : DevEnvs) :
  (∀ before change after,
     (∀ c, c ∈ before → clientConnected c = false) →
     clientConnected change = true →
     let handled := handleRestart w fuel (codeCatalystDevEnvId change) m in
     watchRestartingDevEnvs w fuel (before ++ change :: after) m
     = (true, store handled, events handled))
  ∧ (∀ changes,
       (∀ c, c ∈ changes → clientConnected c = false) →
       watchRestartingDevEnvs w fuel changes m = (false, m, [])).
Proof.
  split.
  - intros before change after Hdis Hconn handled. subst handled.
    unfold watchRestartingDevEnvs.
    induction before as [|c before IH].
    + cbn [app]. rewrite handleChanges_cons, listener_when_connected by done.
      cbv zeta. rewrite !result_run, !store_run, !events_run.
      rewrite handleChanges_handled, !result_run, !store_run, !events_run.
      by rewrite app_nil_r.
    + cbn [app]. rewrite handleChanges_cons.
      rewrite listener_when_disconnected by (apply Hdis; left).
      cbv zeta. rewrite !result_run, !store_run, !events_run.
      rewrite IH.
      * done.
      * intros c' Hc'. apply Hdis. by right.
  - intros changes Hdis. by apply handleChanges_disconnected.
Qed.

Lemma restart_is_handled_once_witness :
  watchRestartingDevEnvs runningWorld 3
    ([mkConnectionChange false None]
       ++ mkConnectionChange true (Some "env-1")
       :: [mkConnectionChange true None; mkConnectionChange true (Some "env-2")])
    twoStore
  = (true, store (handleRestart runningWorld 3 (Some "env-1") twoStore),
     events (handleRestart runningWorld 3 (Some "env-1") twoStore))
  ∧ watchRestartingDevEnvs runningWorld 3 [mkConnectionChange false None] twoStore
    = (false, twoStore, []).
Proof.
  destruct (restart_is_handled_once runningWorld 3 twoStore) as [Hone Hnone].
  split.
  - apply (Hone [mkConnectionChange false None]
             (mkConnectionChange true (Some "env-1"))).
    + intros c Hc. apply list_elem_of_singleton in Hc. by subst c.
    + reflexivity.
  - apply Hnone. intros c Hc. apply list_elem_of_singleton in Hc. by subst c.
Defined.

(** ** More on the filter and the claim flag *)

(** X8.  [filterInvalidDevEnvs] only removes records: what it keeps is in
    the store with the same content, it never keeps more records than it
    was given, and filtering its own result again at the same clock
    changes nothing. *)
Theorem filter_only_removes (now : string → Z) (pending : DevEnvs) :
  filterInvalidDevEnvs now pending ⊆ pending
  ∧ size (filterInvalidDevEnvs now pending) ≤ size pending
  ∧ filterInvalidDevEnvs now (filterInvalidDevEnvs now pending)
    = filterInvalidDevEnvs now pending.
Proof.
  assert (Hsub : filterInvalidDevEnvs now pending ⊆ pending).
  { apply map_subseteq_spec. intros id d.
    rewrite filterInvalidDevEnvs_lookup.
    destruct (pending !! id) as [d'|]; [| done].
    by destruct (isExpired _ _ || _). }
  split_and!; [done | by apply map_subseteq_size |].
  apply map_eq. intros id. rewrite !filterInvalidDevEnvs_lookup.
  destruct (pending !! id) as [d|]; [| done].
  destruct (isExpired _ _ || _) eqn:Hbad; [done |]. by rewrite Hbad.
Qed.

(** X9.  Expiry is permanent: with a clock that has not gone back, a
    record the filter rejects is rejected again, so what the filter keeps
    at the later time it also kept at the earlier one. *)
Theorem filter_shrinks_with_time (earlier later : string → Z)
    (pending : DevEnvs) :
  (∀ id, (earlier id ≤ later id)%Z) →
  filterInvalidDevEnvs later pending ⊆ filterInvalidDevEnvs earlier pending.
Proof.
  intros Hclock. apply map_subseteq_spec. intros id d.
  rewrite !filterInvalidDevEnvs_lookup.
  destruct (pending !! id) as [d'|]; [| done].
  unfold isExpired. specialize (Hclock id).
  destruct (Z.ltb_spec MAX_RECONNECT_TIME
              (later id - previousConnectionTimestamp d')) as [? | Hl];
    [done |].
  destruct (Z.ltb_spec MAX_RECONNECT_TIME
              (earlier id - previousConnectionTimestamp d')) as [? | He];
    [lia | done].
Qed.

Lemma filter_shrinks_with_time_witness :
  filterInvalidDevEnvs (λ _, 700000%Z) twoStore
  ⊆ filterInvalidDevEnvs (λ _, 5000%Z) twoStore.
Proof.
  apply filter_shrinks_with_time. intros id. cbv beta. lia.
Defined.

Lemma withAttemptingReconnect_twice b1 b2 d :
  withAttemptingReconnect b2 (withAttemptingReconnect b1 d)
  = withAttemptingReconnect b2 d.
Proof. reflexivity. Qed.

Lemma withAttemptingReconnect_same d :
  withAttemptingReconnect (attemptingReconnect d) d = d.
Proof. by destruct d. Qed.

Lemma sameFields_refl d : sameFields d d.
Proof. by repeat split. Qed.

Lemma sameFields_marked b d d0 :
  sameFields d d0 → sameFields (withAttemptingReconnect b d) d0.
Proof. intros (? & ? & ? & ? & ?). by repeat split. Qed.

(** X10.  [setWatchedDevEnvStatus] touches nothing but the flag: the
    rewritten object has the same ids, each record has the workspace,
    space, project, timestamp and alias it had before and carries the
    requested flag; and of two rewrites in a row only the second one
    counts. *)
Theorem setWatched_changes_only_flag (devenvs m : DevEnvs) b b' :
  let marked := result (setWatchedDevEnvStatus devenvs b m) in
  dom marked = dom devenvs
  ∧ (∀ id d, marked !! id = Some d →
       attemptingReconnect d = b
       ∧ ∃ d0, devenvs !! id = Some d0 ∧ sameFields d d0)
  ∧ store (setWatchedDevEnvStatus devenvs b m) = marked
  ∧ result (setWatchedDevEnvStatus marked b' marked)
    = result (setWatchedDevEnvStatus devenvs b' m).
Proof.
  cbv zeta. rewrite !setWatchedDevEnvStatus_run, !result_run, !store_run.
  rewrite !markWatched_fmap.
  split_and!.
  - apply dom_fmap_L.
  - intros id d. rewrite lookup_fmap.
    destruct (devenvs !! id) as [d0|]; [| done].
    intros [= <-]. split; [done |]. exists d0. split; [done |].
    apply sameFields_marked, sameFields_refl.
  - done.
  - rewrite <- map_fmap_compose. apply map_fmap_ext. by intros id d _.
Qed.

(** Claiming and then releasing records that were not claimed gives them
    back unchanged. *)
Lemma release_after_claim (now : string → Z) (pending : DevEnvs) :
  markWatched false (markWatched true (filterInvalidDevEnvs now pending))
  = filterInvalidDevEnvs now pending.
Proof.
  apply map_eq. intros id. rewrite !markWatched_lookup.
  destruct (filterInvalidDevEnvs now pending !! id) as [d|] eqn:Hd; [| done].
  cbn. f_equal. rewrite withAttemptingReconnect_twice.
  rewrite filterInvalidDevEnvs_lookup in Hd.
  destruct (pending !! id) as [d'|]; [| done].
  destruct (attemptingReconnect d') eqn:Ha.
  - by rewrite orb_true_r in Hd.
  - destruct (isExpired _ _); [done |]. injection Hd as <-.
    rewrite <- Ha. apply withAttemptingReconnect_same.
Qed.

(** X11.  A watcher cancelled before its first tick writes the store twice,
    the claim and its release, and queries nothing.  The store it leaves
    is the filtered set with every record as it was: the records the filter
    rejected (expired, or claimed by another watcher) are no longer in the
    store. *)
Theorem cancel_before_first_tick w fuel (m : DevEnvs) :
  filterInvalidDevEnvs (filterNow w) m ≠ ∅ →
  isCancellationRequested w 0 = true →
  let valid := filterInvalidDevEnvs (filterNow w) m in
  let run := reconnectDevEnvs w (S fuel) m in
  store run = valid
  ∧ countEvents isQuery (events run) = 0
  ∧ ∃ title, events run
             = [ProgressReport title;
                MementoUpdate (markWatched true valid);
                MementoUpdate valid].
Proof.
  intros Hne Hc valid run. subst run.
  rewrite reconnectDevEnvs_nonempty by done. cbv zeta. fold valid.
  assert (Hsz : 0 < size (markWatched true valid)).
  { rewrite markWatched_size.
    enough (size valid ≠ 0) by lia. by apply map_size_non_empty_iff. }
  rewrite pollLoop_cancelled by done.
  rewrite !store_run, !events_run. unfold valid.
  rewrite release_after_claim. fold valid.
  split_and!; [done | done | by eexists].
Qed.

Lemma cancel_before_first_tick_witness :
  store (reconnectDevEnvs (worldOf 5000 (λ _ _, answering "STARTING") (λ _, true))
           1 twoStore)
  = filterInvalidDevEnvs (λ _, 5000%Z) twoStore.
Proof.
  assert (Hne : filterInvalidDevEnvs
                  (filterNow (worldOf 5000 (λ _ _, answering "STARTING")
                                (λ _, true))) twoStore ≠ ∅).
  { intros H. apply (f_equal (λ o : DevEnvs, o !! "env-1")) in H.
    vm_compute in H. discriminate H. }
  destruct (cancel_before_first_tick
              (worldOf 5000 (λ _ _, answering "STARTING") (λ _, true))
              0 twoStore Hne eq_refl) as (H & _).
  exact H.
Defined.

(** ** What a watch cycle keeps *)

Lemma recordEvents_query_inv w close tick id' d' m' id sp pr :
  GetDevEnvironment id sp pr ∈ recordEvents w close tick id' d' m' →
  id = id' ∧ sp = spaceName d' ∧ pr = projectName d'.
Proof.
  unfold recordEvents. intros [Heq | Hin]%elem_of_cons.
  - by injection Heq as -> -> ->.
  - exfalso. destruct (verdict w tick id' d');
      repeat (apply elem_of_cons in Hin as [Heq | Hin]; [discriminate Heq |]);
      try (by inversion Hin).
    destruct (connectResolves w tick id' && close);
      repeat (apply elem_of_cons in Hin as [Heq | Hin]; [discriminate Heq |]);
      by inversion Hin.
Qed.

(** A property of records that releasing a claim preserves, and that the
    working set and the memento have when the loop starts, holds of every
    record of the working set and of the memento when the run stops, and of
    the record of every query the run makes. *)
Lemma pollLoop_records (Q : string → DevEnvMemento → Prop) w close :
  (∀ id d, Q id d → Q id (withAttemptingReconnect false d)) →
  ∀ fuel tick (devenvs m : DevEnvs),
  (∀ id d, devenvs !! id = Some d → Q id d) →
  (∀ id d, m !! id = Some d → Q id d) →
  let run := pollLoop w close fuel tick devenvs m in
  (∀ id d, store run !! id = Some d → Q id d)
  ∧ (∀ id d, (result run).2 !! id = Some d → Q id d)
  ∧ (∀ id sp pr, GetDevEnvironment id sp pr ∈ events run →
       ∃ d, Q id d ∧ sp = spaceName d ∧ pr = projectName d).
Proof.
  intros Hrel. induction fuel as [|fuel IH]; intros tick devenvs m HD HM run;
    subst run.
  { cbn. split_and!; [done | done |]. intros id sp pr Hin. inversion Hin. }
  destruct (decide (size devenvs = 0)) as [Hz | Hnz].
  { rewrite pollLoop_empty by done. rewrite store_run, result_run, events_run.
    split_and!; [done | done |]. intros id sp pr Hin. inversion Hin. }
  assert (Hmarked : ∀ id d, markWatched false devenvs !! id = Some d → Q id d).
  { intros id d. rewrite markWatched_lookup.
    destruct (devenvs !! id) as [d0|] eqn:Hd0; [| done].
    intros [= <-]. apply Hrel. by apply HD. }
  destruct (isCancellationRequested w tick) eqn:Hc.
  { rewrite pollLoop_cancelled by (done || lia).
    rewrite store_run, result_run, events_run.
    split_and!; [done | done |].
    intros id sp pr Hin. apply list_elem_of_singleton in Hin. discriminate Hin. }
  rewrite pollLoop_step by (done || lia). cbv zeta.
  rewrite store_run, result_run, events_run.
  set (r := pollTick w close tick devenvs m).
  destruct (IH (S tick) (result r) (store r)) as (IHs & IHr & IHq).
  - intros id d. subst r. rewrite pollTick_result. unfold afterQuery.
    destruct (devenvs !! id) as [d0|] eqn:Hd0; [| done].
    destruct (stillWatched _); [| done]. intros [= <-]. by apply HD.
  - intros id d. subst r. rewrite pollTick_store. unfold storedAfterQuery.
    destruct (devenvs !! id) as [d0|]; [| apply HM].
    destruct (writesStore _); [done | apply HM].
  - split_and!; [done | done |].
    intros id sp pr [Hin | Hin]%elem_of_app.
    + apply pollTick_event_inv in Hin as (id' & d' & m' & Hd' & Hin).
      apply recordEvents_query_inv in Hin as (-> & -> & ->).
      exists d'. split; [by apply HD | done].
    + apply elem_of_cons in Hin as [Heq | Hin]; [discriminate Heq |].
      by apply IHq.
Qed.

(** The same, for a whole call of [reconnectDevEnvs], of the records the
    filter kept. *)
Lemma reconnectDevEnvs_records w fuel (m : DevEnvs) :
  filterInvalidDevEnvs (filterNow w) m ≠ ∅ →
  let valid := filterInvalidDevEnvs (filterNow w) m in
  let run := reconnectDevEnvs w fuel m in
  (∀ id d, store run !! id = Some d →
     ∃ d0, valid !! id = Some d0 ∧ sameFields d d0)
  ∧ (∀ id sp pr, GetDevEnvironment id sp pr ∈ events run →
       ∃ d0, valid !! id = Some d0 ∧ sp = spaceName d0 ∧ pr = projectName d0).
Proof.
  intros Hne valid run. subst run.
  rewrite reconnectDevEnvs_nonempty by done. cbv zeta. fold valid.
  rewrite store_run, events_run.
  set (Q := λ (id : string) (d : DevEnvMemento),
              ∃ d0, valid !! id = Some d0 ∧ sameFields d d0).
  assert (Hclaimed : ∀ id d, markWatched true valid !! id = Some d → Q id d).
  { intros id d. rewrite markWatched_lookup.
    destruct (valid !! id) as [d0|] eqn:Hd0; [| done].
    intros [= <-]. exists d0. split; [done |].
    apply sameFields_marked, sameFields_refl. }
  destruct (pollLoop_records Q w (size (markWatched true valid) =? 1))
    with (fuel := fuel) (tick := 0) (devenvs := markWatched true valid)
         (m := markWatched true valid) as (Hs & _ & Hq); [| done | done |].
  { intros id d (d0 & Hd0 & Hsame). exists d0. split; [done |].
    by apply sameFields_marked. }
  split; [done |].
  intros id sp pr Hin.
  apply elem_of_cons in Hin as [Heq | Hin]; [discriminate Heq |].
  apply elem_of_cons in Hin as [Heq | Hin]; [discriminate Heq |].
  apply Hq in Hin as (d & (d0 & Hd0 & Hsame) & -> & ->).
  exists d0. split; [done |].
  destruct Hsame as (_ & Hspace & Hproject & _). done.
Qed.

(** X12.  The claim-write replaces the whole store by the working set: once
    a watcher has found something to watch, a record its filter rejected
    (expired, or claimed by another watcher) is gone from the store, and
    stays gone for the rest of the cycle. *)
Theorem claim_write_drops_rejected_records w fuel (m : DevEnvs) id :
  filterInvalidDevEnvs (filterNow w) m ≠ ∅ →
  filterInvalidDevEnvs (filterNow w) m !! id = None →
  store (reconnectDevEnvs w fuel m) !! id = None.
Proof.
  intros Hne Hrej.
  destruct (reconnectDevEnvs_records w fuel m Hne) as [Hs _].
  destruct (store (reconnectDevEnvs w fuel m) !! id) as [d|] eqn:Hd; [| done].
  apply Hs in Hd as (d0 & Hd0 & _). by rewrite Hrej in Hd0.
Qed.

Lemma claim_write_drops_rejected_records_witness :
  store (reconnectDevEnvs runningWorld 0
           (<["env-9" := withAttemptingReconnect true docsRecord]> oneStore))
    !! "env-9" = None.
Proof.
  apply claim_write_drops_rejected_records.
  - intros H. apply (f_equal (λ o : DevEnvs, o !! "env-1")) in H.
    vm_compute in H. discriminate H.
  - vm_compute. reflexivity.
Defined.

(** X13.  A watcher never edits a record beyond its claim flag: whatever
    [reconnectDevEnvs] leaves in the store under an id has the workspace,
    space, project, timestamp and alias of the record the store held there
    before. *)
Theorem watcher_changes_only_claim_flag w fuel (m : DevEnvs) id d :
  store (reconnectDevEnvs w fuel m) !! id = Some d →
  ∃ d0, m !! id = Some d0 ∧ sameFields d d0.
Proof.
  destruct (decide (filterInvalidDevEnvs (filterNow w) m = ∅)) as [He | Hne].
  - rewrite reconnectDevEnvs_empty by done. rewrite store_run.
    intros Hd. exists d. split; [done | apply sameFields_refl].
  - destruct (reconnectDevEnvs_records w fuel m Hne) as [Hs _].
    intros Hd. apply Hs in Hd as (d0 & Hd0 & Hsame).
    exists d0. split; [| done].
    rewrite filterInvalidDevEnvs_lookup in Hd0.
    destruct (m !! id) as [d'|]; [| done].
    destruct (isExpired _ _ || _); [done |]. by injection Hd0 as ->.
Qed.

Lemma watcher_changes_only_claim_flag_witness :
  ∃ d0, twoStore !! "env-2" = Some d0
        ∧ sameFields (withAttemptingReconnect true docsRecord) d0.
Proof.
  apply (watcher_changes_only_claim_flag errorWorld 2 twoStore "env-2").
  vm_compute. reflexivity.
Defined.

(** X14.  A watcher only queries what it watches: every status query of a
    call of [reconnectDevEnvs] is for a record its filter kept (so never for
    an expired record or one another watcher has claimed), and it asks with
    that record's own space and project names. *)
Theorem queries_only_watched_records w fuel (m : DevEnvs) id sp pr :
  GetDevEnvironment id sp pr ∈ events (reconnectDevEnvs w fuel m) →
  ∃ d, filterInvalidDevEnvs (filterNow w) m !! id = Some d
       ∧ sp = spaceName d ∧ pr = projectName d.
Proof.
  destruct (decide (filterInvalidDevEnvs (filterNow w) m = ∅)) as [He | Hne].
  - rewrite reconnectDevEnvs_empty by done. rewrite events_run.
    intros Hin. inversion Hin.
  - destruct (reconnectDevEnvs_records w fuel m Hne) as [_ Hq]. apply Hq.
Qed.

Lemma queries_only_watched_records_witness :
  ∃ d, filterInvalidDevEnvs (filterNow errorWorld) twoStore !! "env-2" = Some d
       ∧ "space" = spaceName d ∧ "docs" = projectName d.
Proof.
  apply (queries_only_watched_records errorWorld 2 twoStore "env-2").
  vm_compute. do 5 right. left.
Defined.

(** ** How long the loop runs *)

Lemma pollLoop_polls_forever w close id d : ∀ fuel t0 (devenvs m : DevEnvs),
  devenvs !! id = Some d →
  (∀ t, t0 ≤ t →
     isCancellationRequested w t = false
     ∧ ∃ md, getDevEnvironment w t id (spaceName d) (projectName d) = Some md
             ∧ status md ≠ Some "RUNNING" ∧ isTerminating md = false) →
  let run := pollLoop w close fuel t0 devenvs m in
  (result run).1 = StillPolling
  ∧ (result run).2 !! id = Some d
  ∧ countEvents (isQueryFor id) (events run) = fuel.
Proof.
  induction fuel as [|fuel IH]; intros t0 devenvs m Hd Hwait run; subst run;
    [done |].
  destruct (Hwait t0 ltac:(lia)) as (Hc & md & Hq & Hst & Hterm).
  pose proof (verdict_waiting w t0 id d md Hq Hst Hterm) as Hv.
  rewrite pollLoop_step by (done || by eapply size_pos_lookup).
  cbv zeta. rewrite result_run, events_run.
  destruct (IH (S t0) (result (pollTick w close t0 devenvs m))
              (store (pollTick w close t0 devenvs m))) as (IH1 & IH2 & IH3).
  - rewrite pollTick_result, Hd. unfold afterQuery. by rewrite Hv.
  - intros t Ht. apply Hwait. lia.
  - split_and!; [done | done |].
    rewrite countEvents_app. cbn [countEvents isQueryFor].
    rewrite pollTick_query_count, Hd, IH3. lia.
Qed.

(** X15.  The loop has no timeout of its own.  As long as one watched
    record keeps answering with a status that is neither RUNNING nor
    terminating (expired or not) and nobody cancels, [pollDevEnvs] never
    returns: after any number of ticks it is still polling, the record is
    still watched, and it has been queried once per tick. *)
Theorem waiting_record_is_polled_forever w fuel (devenvs m : DevEnvs) id d :
  devenvs !! id = Some d →
  (∀ t, isCancellationRequested w t = false
        ∧ ∃ md, getDevEnvironment w t id (spaceName d) (projectName d) = Some md
                ∧ status md ≠ Some "RUNNING" ∧ isTerminating md = false) →
  let run := pollDevEnvs w fuel devenvs m in
  (result run).1 = StillPolling
  ∧ (result run).2 !! id = Some (withAttemptingReconnect true d)
  ∧ countEvents (isQueryFor id) (events run) = fuel.
Proof.
  intros Hd Hwait run. subst run.
  rewrite pollDevEnvs_events, pollDevEnvs_result.
  cbn [countEvents isQueryFor].
  apply (pollLoop_polls_forever w (size devenvs =? 1) id
           (withAttemptingReconnect true d)).
  - by rewrite markWatched_lookup, Hd.
  - intros t _. apply Hwait.
Qed.

Lemma waiting_record_is_polled_forever_witness :
  (result (pollDevEnvs expiredWorld 7 twoStore twoStore)).1 = StillPolling
  ∧ countEvents (isQueryFor "env-2")
      (events (pollDevEnvs expiredWorld 7 twoStore twoStore)) = 7.
Proof.
  destruct (waiting_record_is_polled_forever expiredWorld 7 twoStore twoStore
              "env-2" docsRecord eq_refl) as (H1 & _ & H3).
  - intros t. split; [reflexivity |].
    exists {| status := Some "STOPPED" |}.
    split; [reflexivity |]. split; [discriminate | reflexivity].
  - exact (conj H1 H3).
Defined.

Lemma verdict_resolved w tick id d :
  (∀ md, getDevEnvironment w tick id (spaceName d) (projectName d) = Some md →
         status md = Some "RUNNING" ∨ isTerminating md = true) →
  stillWatched (verdict w tick id d) = false.
Proof.
  intros Hres. unfold verdict.
  destruct (getDevEnvironment w tick id _ _) as [md|]; [| done].
  destruct (Hres md eq_refl) as [Hst | Hterm].
  - unfold isRunning. by rewrite Hst.
  - rewrite Hterm. by destruct (isRunning md).
Qed.

(** X16.  The loop ends after one tick when every watched record is
    settled by its first answer: if nobody cancels and every query of the
    first tick is rejected or returns RUNNING or a terminating status,
    [pollDevEnvs] queries each record once, sleeps, and returns with an
    empty working set. *)
Theorem loop_returns_when_all_settled w fuel (devenvs m : DevEnvs) :
  isCancellationRequested w 0 = false →
  (∀ id d md,
     devenvs !! id = Some d →
     getDevEnvironment w 0 id (spaceName d) (projectName d) = Some md →
     status md = Some "RUNNING" ∨ isTerminating md = true) →
  let run := pollDevEnvs w (S (S fuel)) devenvs m in
  result run = (Returned, ∅)
  ∧ ∀ id, countEvents (isQueryFor id) (events run)
          = match devenvs !! id with Some _ => 1 | None => 0 end.
Proof.
  intros Hc Hres run. subst run.
  rewrite pollDevEnvs_events, pollDevEnvs_result.
  set (watched := markWatched true devenvs).
  set (close := size devenvs =? 1).
  destruct (decide (size watched = 0)) as [Hz | Hnz].
  { rewrite pollLoop_empty by done. rewrite result_run, events_run.
    assert (watched = ∅) as Hempty by (by apply map_size_empty_iff).
    split; [by rewrite Hempty |].
    intros id. cbn. apply (f_equal (λ o : DevEnvs, o !! id)) in Hempty.
    subst watched. rewrite markWatched_lookup, lookup_empty in Hempty.
    by destruct (devenvs !! id). }
  rewrite pollLoop_step by (done || lia). cbv zeta.
  rewrite result_run, events_run.
  assert (Hgone : result (pollTick w close 0 watched watched) = ∅).
  { apply map_eq. intros id. rewrite pollTick_result, lookup_empty.
    subst watched. rewrite markWatched_lookup.
    destruct (devenvs !! id) as [d|] eqn:Hd; [| done]. cbn.
    rewrite verdict_withAttemptingReconnect.
    rewrite verdict_resolved; [done |]. intros md. by apply Hres. }
  rewrite Hgone. rewrite pollLoop_empty by apply map_size_empty.
  rewrite result_run, events_run. split; [done |].
  intros id. cbn [countEvents isQueryFor].
  rewrite countEvents_app, pollTick_query_count. cbn.
  subst watched. rewrite markWatched_lookup.
  by destruct (devenvs !! id).
Qed.

Lemma loop_returns_when_all_settled_witness :
  result (pollDevEnvs errorWorld 2 oneStore oneStore) = (Returned, ∅).
Proof.
  destruct (loop_returns_when_all_settled errorWorld 0 oneStore oneStore eq_refl)
    as [H _]; [| exact H].
  intros id d md Hd Hq.
  destruct (decide (id = "env-1")) as [-> | Hne].
  - vm_compute in Hq. discriminate Hq.
  - unfold oneStore in Hd. rewrite lookup_singleton_ne in Hd by done.
    discriminate Hd.
Defined.

(** Without cancellation the loop returns only when nothing is left to
    watch. *)
Lemma pollLoop_returns_empty w close : ∀ fuel tick (devenvs m : DevEnvs),
  (∀ t, isCancellationRequested w t = false) →
  (result (pollLoop w close fuel tick devenvs m)).1 = Returned →
  (result (pollLoop w close fuel tick devenvs m)).2 = ∅.
Proof.
  induction fuel as [|fuel IH]; intros tick devenvs m Hc; [done |].
  destruct (decide (size devenvs = 0)) as [Hz | Hnz].
  { rewrite pollLoop_empty by done. rewrite result_run. intros _.
    by apply map_size_empty_iff. }
  rewrite pollLoop_step by (done || lia). cbv zeta. rewrite result_run.
  by apply IH.
Qed.

(** X17.  If nobody cancels, [pollDevEnvs] returns only with an empty
    working set: a watch cycle that has ended has settled every record it
    started with. *)
Theorem uncancelled_loop_returns_empty w fuel (devenvs m : DevEnvs) :
  (∀ t, isCancellationRequested w t = false) →
  (result (pollDevEnvs w fuel devenvs m)).1 = Returned →
  (result (pollDevEnvs w fuel devenvs m)).2 = ∅.
Proof.
  intros Hc. rewrite pollDevEnvs_result. by apply pollLoop_returns_empty.
Qed.

Lemma uncancelled_loop_returns_empty_witness :
  (result (pollDevEnvs restartWorld 3 twoStore twoStore)).2 = ∅.
Proof.
  apply uncancelled_loop_returns_empty.
  - intros t. reflexivity.
  - vm_compute. reflexivity.
Defined.

(** ** What a watch cycle costs *)

Lemma recordEvents_query_total w close tick id d m :
  countEvents isQuery (recordEvents w close tick id d m) = 1.
Proof.
  unfold recordEvents. cbn.
  destruct (verdict w tick id d); cbn; try done.
  by destruct (connectResolves w tick id && close).
Qed.

Lemma recordEvents_store_writes w close tick id d m :
  countEvents isStoreWrite (recordEvents w close tick id d m)
  = if writesStore (verdict w tick id d) then 1 else 0.
Proof.
  unfold recordEvents. cbn.
  destruct (verdict w tick id d); cbn; try done.
  by destruct (connectResolves w tick id && close).
Qed.

Lemma count_flat_map_each (p : Event → bool) {A} (F : A → list Event)
    (l : list A) n :
  (∀ x, x ∈ l → countEvents p (F x) = n) →
  countEvents p (flat_map F l) = length l * n.
Proof.
  induction l as [|x l IH]; intros Heach; [done |].
  cbn [flat_map length]. rewrite countEvents_app, (Heach x) by left.
  rewrite IH; [lia |]. intros y Hy. apply Heach. by right.
Qed.

Lemma pollTick_query_total w close tick (devenvs m : DevEnvs) :
  countEvents isQuery (events (pollTick w close tick devenvs m)) = size devenvs.
Proof.
  destruct (pollTick_events w close tick devenvs m) as [ms ->].
  rewrite (count_flat_map_each _ _ _ 1).
  - rewrite length_map_to_list. lia.
  - intros [k d] _. apply recordEvents_query_total.
Qed.

Lemma pollTick_result_subseteq w close tick (devenvs m : DevEnvs) :
  result (pollTick w close tick devenvs m) ⊆ devenvs.
Proof.
  apply map_subseteq_spec. intros id d. rewrite pollTick_result.
  unfold afterQuery. destruct (devenvs !! id) as [d0|]; [| done].
  by destruct (stillWatched _).
Qed.

Lemma pollLoop_query_bound w close : ∀ fuel tick (devenvs m : DevEnvs),
  countEvents isQuery (events (pollLoop w close fuel tick devenvs m))
  ≤ fuel * size devenvs.
Proof.
  induction fuel as [|fuel IH]; intros tick devenvs m; [cbn; lia |].
  destruct (decide (size devenvs = 0)) as [Hz | Hnz].
  { rewrite pollLoop_empty by done. cbn. lia. }
  destruct (isCancellationRequested w tick) eqn:Hc.
  { rewrite pollLoop_cancelled by (done || lia). cbn. lia. }
  rewrite pollLoop_step by (done || lia). cbv zeta. rewrite events_run.
  rewrite countEvents_app. cbn [countEvents isQuery].
  rewrite pollTick_query_total.
  specialize (IH (S tick) (result (pollTick w close tick devenvs m))
                (store (pollTick w close tick devenvs m))).
  pose proof (map_subseteq_size _ _
                (pollTick_result_subseteq w close tick devenvs m)) as Hle.
  nia.
Qed.

(** X18.  A tick makes exactly one status query per watched record, and
    the working set never grows: a watch cycle of [n] ticks makes at most
    [n] times as many queries as it had records to start with. *)
Theorem queries_are_bounded w close fuel tick (devenvs m : DevEnvs) :
  countEvents isQuery (events (pollTick w close tick devenvs m)) = size devenvs
  ∧ result (pollTick w close tick devenvs m) ⊆ devenvs
  ∧ countEvents isQuery (events (pollDevEnvs w fuel devenvs m))
    ≤ fuel * size devenvs.
Proof.
  split_and!.
  - apply pollTick_query_total.
  - apply pollTick_result_subseteq.
  - rewrite pollDevEnvs_events. cbn [countEvents isQuery].
    rewrite <- (markWatched_size true devenvs) at 2.
    apply pollLoop_query_bound.
Qed.

Lemma pollTick_quiet w close tick (devenvs m : DevEnvs) :
  (∀ id sp pr, getDevEnvironment w tick id sp pr ≠ None) →
  store (pollTick w close tick devenvs m) = m
  ∧ countEvents isStoreWrite (events (pollTick w close tick devenvs m)) = 0.
Proof.
  intros Hok.
  assert (Hv : ∀ id d, writesStore (verdict w tick id d) = false).
  { intros id d. unfold verdict.
    destruct (getDevEnvironment w tick id _ _) as [md|] eqn:Hq;
      [| by apply Hok in Hq].
    destruct (isRunning md); [done |]. destruct (isTerminating md); [done |].
    by destruct (isExpired _ _). }
  split.
  - apply map_eq. intros id. rewrite pollTick_store. unfold storedAfterQuery.
    destruct (devenvs !! id) as [d|]; [| done]. by rewrite Hv.
  - destruct (pollTick_events w close tick devenvs m) as [ms ->].
    rewrite (count_flat_map_each _ _ _ 0); [lia |].
    intros [k d] _. by rewrite recordEvents_store_writes, Hv.
Qed.

Lemma pollLoop_quiet w close : ∀ fuel tick (devenvs m : DevEnvs),
  (∀ t, isCancellationRequested w t = false) →
  (∀ t id sp pr, getDevEnvironment w t id sp pr ≠ None) →
  store (pollLoop w close fuel tick devenvs m) = m
  ∧ countEvents isStoreWrite (events (pollLoop w close fuel tick devenvs m)) = 0.
Proof.
  induction fuel as [|fuel IH]; intros tick devenvs m Hc Hok; [done |].
  destruct (decide (size devenvs = 0)) as [Hz | Hnz].
  { by rewrite pollLoop_empty by done. }
  rewrite pollLoop_step by (done || lia). cbv zeta.
  rewrite store_run, events_run.
  destruct (pollTick_quiet w close tick devenvs m (Hok tick)) as [Hs Hw].
  destruct (IH (S tick) (result (pollTick w close tick devenvs m))
              (store (pollTick w close tick devenvs m)) Hc Hok) as [IHs IHw].
  rewrite countEvents_app. cbn [countEvents isStoreWrite].
  rewrite IHs, IHw, Hs, Hw. done.
Qed.

(** X19.  The claim is the watcher's only write unless a query fails or the
    user cancels: in a cycle where every status query gets an answer and
    nobody cancels, the store holds the claimed working set from the first
    write to the end, so the records that came up RUNNING or were found
    terminating are still in it, still flagged as being reconnected. *)
Theorem claim_is_the_only_write w fuel (devenvs m : DevEnvs) :
  (∀ t, isCancellationRequested w t = false) →
  (∀ t id sp pr, getDevEnvironment w t id sp pr ≠ None) →
  let run := pollDevEnvs w fuel devenvs m in
  store run = withAttemptingReconnect true <$> devenvs
  ∧ countEvents isStoreWrite (events run) = 1.
Proof.
  intros Hc Hok run. subst run. rewrite pollDevEnvs_events.
  unfold pollDevEnvs. rewrite store_bind, setWatchedDevEnvStatus_run.
  rewrite result_run, store_run. cbn [countEvents isStoreWrite].
  destruct (pollLoop_quiet w (size devenvs =? 1) fuel 0
              (markWatched true devenvs) (markWatched true devenvs) Hc Hok)
    as [Hs Hw].
  rewrite markWatched_size, Hs, Hw. split; [apply markWatched_fmap | done].
Qed.

Lemma claim_is_the_only_write_witness :
  store (pollDevEnvs runningWorld 3 twoStore twoStore)
  = withAttemptingReconnect true <$> twoStore.
Proof.
  destruct (claim_is_the_only_write runningWorld 3 twoStore twoStore) as [H _].
  - intros t. reflexivity.
  - intros t id sp pr Hq. cbn in Hq. discriminate Hq.
  - exact H.
Defined.

Lemma pollLoop_never_closes w close :
  (∀ t id, connectResolves w t id = false) →
  ∀ fuel tick (devenvs m : DevEnvs),
  countEvents isCloseWindow (events (pollLoop w close fuel tick devenvs m)) = 0.
Proof.
  intros Hrej. induction fuel as [|fuel IH]; intros tick devenvs m; [done |].
  destruct (decide (size devenvs = 0)) as [Hz | Hnz].
  { by rewrite pollLoop_empty by done. }
  destruct (isCancellationRequested w tick) eqn:Hc.
  { by rewrite pollLoop_cancelled by (done || lia). }
  rewrite pollLoop_step by (done || lia). cbv zeta. rewrite events_run.
  rewrite countEvents_app. cbn [countEvents isCloseWindow]. rewrite IH.
  destruct (pollTick_events w close tick devenvs m) as [ms ->].
  rewrite (count_flat_map_each _ _ _ 0); [lia |].
  intros [k d] _. unfold recordEvents. rewrite Hrej. cbn [andb fst snd].
  destruct (verdict w tick k d); reflexivity.
Qed.

(** X20.  The window is closed only after a connect command that resolved:
    if the connect command is rejected every time, no watch cycle closes the
    window, not even one that watches a single dev environment. *)
Theorem rejected_connect_never_closes w fuel (devenvs m : DevEnvs) :
  (∀ t id, connectResolves w t id = false) →
  countEvents isCloseWindow (events (pollDevEnvs w fuel devenvs m)) = 0.
Proof.
  intros Hrej. rewrite pollDevEnvs_events. cbn [countEvents isCloseWindow].
  by apply pollLoop_never_closes.
Qed.

Lemma rejected_connect_never_closes_witness :
  countEvents isCloseWindow
    (events (pollDevEnvs rejectingWorld 3 oneStore oneStore)) = 0
  ∧ countEvents (isConnectFor "env-1")
      (events (pollDevEnvs rejectingWorld 3 oneStore oneStore)) = 1.
Proof.
  split.
  - apply rejected_connect_never_closes. intros t id. reflexivity.
  - vm_compute. reflexivity.
Defined.

(** ** Closing the window, and a second watcher *)

Lemma recordEvents_close_le w close tick id d m :
  countEvents isCloseWindow (recordEvents w close tick id d m)
  ≤ if stillWatched (verdict w tick id d) then 0 else 1.
Proof.
  unfold recordEvents. cbn.
  destruct (verdict w tick id d); cbn; try lia.
  destruct (connectResolves w tick id && close); cbn; lia.
Qed.

Lemma pollLoop_nothing_to_do w close fuel tick (m : DevEnvs) :
  events (pollLoop w close fuel tick ∅ m) = [].
Proof.
  destruct fuel as [|fuel]; [done |].
  by rewrite pollLoop_empty by apply map_size_empty.
Qed.

Lemma pollLoop_single_close_le w close id d : ∀ fuel tick (m : DevEnvs),
  countEvents isCloseWindow
    (events (pollLoop w close fuel tick {[id := d]} m)) ≤ 1.
Proof.
  induction fuel as [|fuel IH]; intros tick m; [cbn; lia |].
  destruct (isCancellationRequested w tick) eqn:Hc.
  { rewrite pollLoop_cancelled by (done || (rewrite map_size_singleton; lia)).
    cbn. lia. }
  rewrite pollLoop_step by (done || (rewrite map_size_singleton; lia)).
  cbv zeta. rewrite pollTick_singleton, result_run, store_run, !events_run.
  rewrite countEvents_app. cbn [countEvents isCloseWindow].
  pose proof (recordEvents_close_le w close tick id d m) as Hle.
  destruct (stillWatched (verdict w tick id d)).
  - specialize (IH (S tick)
                  (if writesStore (verdict w tick id d) then delete id m else m)).
    lia.
  - rewrite pollLoop_nothing_to_do. cbn [countEvents]. lia.
Qed.

(** X21.  A watch cycle closes the window at most once. *)
Theorem window_closed_at_most_once w fuel (devenvs m : DevEnvs) :
  countEvents isCloseWindow (events (pollDevEnvs w fuel devenvs m)) ≤ 1.
Proof.
  rewrite pollDevEnvs_events. cbn [countEvents isCloseWindow].
  destruct (size devenvs =? 1) eqn:Hsz.
  - apply Nat.eqb_eq in Hsz.
    assert (∃ id d, devenvs !! id = Some d) as (id & d & Hd).
    { apply map_size_ne_0_lookup. lia. }
    rewrite (size_one_singleton devenvs id d Hsz Hd).
    rewrite markWatched_fmap, map_fmap_singleton.
    apply pollLoop_single_close_le.
  - rewrite pollLoop_no_close by done. lia.
Qed.

Lemma pollLoop_store_claimed w close : ∀ fuel tick (devenvs m : DevEnvs),
  (∀ t, isCancellationRequested w t = false) →
  allClaimed m →
  allClaimed (store (pollLoop w close fuel tick devenvs m)).
Proof.
  induction fuel as [|fuel IH]; intros tick devenvs m Hc Hall; [done |].
  destruct (decide (size devenvs = 0)) as [Hz | Hnz].
  { by rewrite pollLoop_empty by done. }
  rewrite pollLoop_step by (done || lia). cbv zeta. rewrite store_run.
  apply IH; [done |]. intros id d. rewrite pollTick_store.
  unfold storedAfterQuery. destruct (devenvs !! id) as [d0|]; [| apply Hall].
  destruct (writesStore _); [done | apply Hall].
Qed.

(** X22.  While a watcher polls, the store holds only claimed records: at
    whatever tick a second watcher reads the store of a cycle that has not
    been cancelled, its filter keeps nothing, and it returns without
    writing, querying or polling. *)
Theorem second_watcher_finds_nothing w fuel w' fuel' (devenvs m : DevEnvs) :
  (∀ t, isCancellationRequested w t = false) →
  let shared := store (pollDevEnvs w fuel devenvs m) in
  allClaimed shared
  ∧ filterInvalidDevEnvs (filterNow w') shared = ∅
  ∧ reconnectDevEnvs w' fuel' shared = (tt, shared, []).
Proof.
  intros Hc shared.
  assert (Hall : allClaimed shared).
  { subst shared. unfold pollDevEnvs.
    rewrite store_bind, setWatchedDevEnvStatus_run, result_run, store_run.
    apply pollLoop_store_claimed; [done |].
    intros id d. rewrite markWatched_lookup.
    destruct (devenvs !! id) as [d0|]; [| done]. by intros [= <-]. }
  pose proof (filterInvalidDevEnvs_allClaimed (filterNow w') shared Hall) as He.
  split_and!; [done | done | by apply reconnectDevEnvs_empty].
Qed.

Lemma second_watcher_finds_nothing_witness :
  reconnectDevEnvs runningWorld 4
    (store (pollDevEnvs errorWorld 3 twoStore twoStore))
  = (tt, store (pollDevEnvs errorWorld 3 twoStore twoStore), []).
Proof.
  destruct (second_watcher_finds_nothing errorWorld 3 runningWorld 4
              twoStore twoStore) as (_ & _ & H).
  - intros t. reflexivity.
  - exact H.
Defined.

(** X23.  Outside a dev environment [handleRestart] starts the watcher,
    and when the store has nothing to watch (it is empty, or every record
    is expired or claimed) all it does is write its log line: the store
    is not written and nothing is shown or queried. *)
Theorem restart_with_nothing_to_watch w fuel (m : DevEnvs) :
  filterInvalidDevEnvs (filterNow w) m = ∅ →
  handleRestart w fuel None m
  = (tt, m,
     [LogInfo "codecatalyst: attempting to poll development envionments"]).
Proof.
  intros Hempty.
  change (handleRestart w fuel None m)
    with (result (reconnectDevEnvs w fuel m), store (reconnectDevEnvs w fuel m),
          LogInfo "codecatalyst: attempting to poll development envionments"
            :: events (reconnectDevEnvs w fuel m)).
  by rewrite reconnectDevEnvs_empty by done.
Qed.

Lemma restart_with_nothing_to_watch_witness :
  handleRestart expiredWorld 3 None twoStore
  = (tt, twoStore,
     [LogInfo "codecatalyst: attempting to poll development envionments"]).
Proof.
  apply restart_with_nothing_to_watch. vm_compute. reflexivity.
Defined.
